(** * AppointmentList: the appointment synchronizer and the selection engine

    A shallow embedding of [src/components/AppointmentList.js] (the variant
    with search and multi-select; the earlier variant kept in the same file
    has the same [fetchAppointments] and the same sort comparator).

    The React component keeps five pieces of state and reacts to events.
    Each handler is embedded as a computation in a small monad [UI] that
    threads the component state and records, in order, every interaction
    with the outside world ([alert], [window.confirm], the backend reads and
    writes).  The answers of the outside world come from a [World]. *)

From Stdlib Require Import List ZArith String Ascii Bool Lia.
From Stdlib Require Import Permutation Sorted RelationClasses DecimalString.
Import ListNotations.

Local Open Scope string_scope.
Local Open Scope list_scope.
Local Open Scope Z_scope.

(** ** The JavaScript built-ins the component calls *)

Module Js.

(** [String.prototype.startsWith] at position 0. *)
Fixpoint startsWith (s needle : string) {struct needle} : bool :=
  match needle, s with
  | EmptyString, _ => true
  | String _ _, EmptyString => false
  | String c needle', String d s' => Ascii.eqb c d && startsWith s' needle'
  end.

(** [String.prototype.includes]: [needle] occurs in [s] at some position;
    characters are compared exactly (no case folding, no normalization). *)
Fixpoint includes (s needle : string) : bool :=
  startsWith s needle ||
  match s with
  | EmptyString => false
  | String _ s' => includes s' needle
  end.

Section Sort.
Context {A : Type}.
Variable comparefn : A -> A -> Z.

(** [x] is placed before the first element it does not come after. *)
Fixpoint insert (x : A) (l : list A) : list A :=
  match l with
  | [] => [x]
  | y :: l' => if 0 <? comparefn x y then y :: insert x l' else x :: y :: l'
  end.

(** [Array.prototype.sort(comparefn)].  ECMAScript fixes the result for a
    consistent comparator: the stable sort.  The engine's algorithm is
    not part of the repository; a stable insertion sort stands for it. *)
Fixpoint sort (l : list A) : list A :=
  match l with
  | [] => []
  | x :: l' => insert x (sort l')
  end.
End Sort.

(** [`${n}`] for a non-negative integer (an array length). *)
Definition toString (n : nat) : string :=
  NilZero.string_of_uint (Nat.to_uint n).

End Js.

(** ** Data model *)

(** A row of the [scheduled_messages] table.  [scheduled_for] stands for the
    time value of [new Date(app.scheduled_for)] in milliseconds; rows whose
    timestamp does not parse are outside the model. *)
Record Appointment : Type := mkAppointment {
  id : Z;
  user_id : string;
  phone_number : string;
  message_text : string;
  scheduled_for : Z;
  status : string
}.

(** The [user] prop.  [uid] is [user.id], which may be missing. *)
Record User : Type := mkUser { uid : option string }.

(** [user && user.id]: the identifier when it is truthy. *)
Definition truthy_id (user : option User) : option string :=
  match user with
  | Some {| uid := Some s |} => if (s =? "")%string then None else Some s
  | _ => None
  end.

(** The read [fetchAppointments] builds:
    [.eq('user_id', user.id).or('status.eq.pending,and(status.eq.cancelado,
    scheduled_for.gte.startOfToday,scheduled_for.lt.startOfTomorrow)')]. *)
Record SelectQuery : Type := mkSelect {
  sq_user_id : string;
  sq_startOfToday : Z;
  sq_startOfTomorrow : Z
}.

(** The rows such a read asks for. *)
Definition matches (q : SelectQuery) (app : Appointment) : bool :=
  (user_id app =? sq_user_id q)%string &&
  ((status app =? "pending")%string ||
   ((status app =? "cancelado")%string &&
    (sq_startOfToday q <=? scheduled_for app) &&
    (scheduled_for app <? sq_startOfTomorrow q))).

Record PostgrestError : Type := mkError { message : string }.

(** [{ data, error }] as the backend client resolves a read. *)
Record SelectResponse : Type := mkSelectResponse {
  data : option (list Appointment);
  sel_error : option PostgrestError
}.

(** [.eq('id', appointmentId)] or [.in('id', selectedAppointments)]. *)
Inductive IdMatch : Type :=
| IdEq (appointmentId : Z)
| IdIn (ids : list Z).

(** [.update({ status }).<id match>.eq('user_id', user.id).select()]. *)
Record UpdateRequest : Type := mkUpdate {
  patch_status : string;
  match_id : IdMatch;
  match_user_id : option string
}.

Record UpdateResponse : Type := mkUpdateResponse {
  upd_error : option PostgrestError
}.

(** What a handler does to the outside world, in the order it does it. *)
Inductive Effect : Type :=
| Alert (msg : string)
| Confirm (msg : string)
| BackendSelect (q : SelectQuery)
| BackendUpdate (u : UpdateRequest).

(** What the outside world answers: the clock (local midnight of today and of
    tomorrow, as time values), the user at the confirmation dialog, and the
    backend. *)
Record World : Type := mkWorld {
  startOfToday : Z;
  startOfTomorrow : Z;
  window_confirm : string -> bool;
  supabase_select : SelectQuery -> SelectResponse;
  supabase_update : UpdateRequest -> UpdateResponse
}.

(** The component's [useState] cells. *)
Record State : Type := mkState {
  appointments : list Appointment;
  loading : bool;
  error : option string;
  searchTerm : string;
  selectedAppointments : list Z
}.

(** The state on mount. *)
Definition initial_state : State :=
  {| appointments := []; loading := true; error := None;
     searchTerm := ""; selectedAppointments := [] |}.

(** ** The [UI] monad *)

Definition UI (A : Type) : Type := World -> State -> A * State * list Effect.

Definition ret {A : Type} (a : A) : UI A := fun _ st => (a, st, []).

Definition bind {A B : Type} (m : UI A) (k : A -> UI B) : UI B :=
  fun w st =>
    let '(a, st1, t1) := m w st in
    let '(b, st2, t2) := k a w st1 in
    (b, st2, t1 ++ t2).

Declare Scope ui_scope.
Delimit Scope ui_scope with ui.
Notation "x <- m ;; k" := (bind m (fun x => k))
  (at level 61, m at next level, right associativity) : ui_scope.
Notation "m ;; k" := (bind m (fun _ => k))
  (at level 61, right associativity) : ui_scope.
Local Open Scope ui_scope.

(** The state a computation leaves and the effects it performed. *)
Definition exec {A : Type} (m : UI A) (w : World) (st : State) : State :=
  snd (fst (m w st)).
Definition trace {A : Type} (m : UI A) (w : World) (st : State) : list Effect :=
  snd (m w st).

Definition world : UI World := fun w st => (w, st, []).

Definition setAppointments (v : list Appointment) : UI unit := fun _ st =>
  (tt, {| appointments := v; loading := loading st; error := error st;
          searchTerm := searchTerm st;
          selectedAppointments := selectedAppointments st |}, []).

Definition setLoading (v : bool) : UI unit := fun _ st =>
  (tt, {| appointments := appointments st; loading := v; error := error st;
          searchTerm := searchTerm st;
          selectedAppointments := selectedAppointments st |}, []).

Definition setError (v : option string) : UI unit := fun _ st =>
  (tt, {| appointments := appointments st; loading := loading st; error := v;
          searchTerm := searchTerm st;
          selectedAppointments := selectedAppointments st |}, []).

Definition setSearchTerm (v : string) : UI unit := fun _ st =>
  (tt, {| appointments := appointments st; loading := loading st;
          error := error st; searchTerm := v;
          selectedAppointments := selectedAppointments st |}, []).

Definition setSelectedAppointments (v : list Z) : UI unit := fun _ st =>
  (tt, {| appointments := appointments st; loading := loading st;
          error := error st; searchTerm := searchTerm st;
          selectedAppointments := v |}, []).

Definition alert (msg : string) : UI unit := fun _ st => (tt, st, [Alert msg]).

Definition confirm (msg : string) : UI bool := fun w st =>
  (window_confirm w msg, st, [Confirm msg]).

Definition select (q : SelectQuery) : UI SelectResponse := fun w st =>
  (supabase_select w q, st, [BackendSelect q]).

Definition update (u : UpdateRequest) : UI UpdateResponse := fun w st =>
  (supabase_update w u, st, [BackendUpdate u]).

(** ** The synchronizer *)

(** The comparator handed to [sort] in [fetchAppointments]. *)
Definition compareAppointments (a b : Appointment) : Z :=
  if (status a =? "pending")%string && (status b =? "cancelado")%string then -1
  else if (status a =? "cancelado")%string && (status b =? "pending")%string then 1
  else scheduled_for a - scheduled_for b.

(** [fetchAppointments], run to completion. *)
Definition fetchAppointments (user : option User) : UI unit :=
  w <- world ;;
  match truthy_id user with
  | None =>
      setAppointments [] ;;
      setLoading false
  | Some user_id =>
      setLoading true ;;
      setError None ;;
      r <- select {| sq_user_id := user_id;
                     sq_startOfToday := startOfToday w;
                     sq_startOfTomorrow := startOfTomorrow w |} ;;
      match sel_error r with
      | Some fetchError =>
          setError (Some (message fetchError)) ;;
          setAppointments []
      | None =>
          let fetchedAppointments :=
            match data r with Some rows => rows | None => [] end in
          setAppointments (Js.sort compareAppointments fetchedAppointments)
      end ;;
      setLoading false
  end.

(** ** Rendering *)

(** [appointments.filter(app => app.phone_number.includes(searchTerm))]. *)
Definition filteredAppointments (st : State) : list Appointment :=
  filter (fun app => Js.includes (phone_number app) (searchTerm st))
         (appointments st).

(** [app.status !== 'cancelado']. *)
Definition not_cancelado (app : Appointment) : bool :=
  negb (status app =? "cancelado")%string.

(** ** The selection and bulk-cancel engine *)

(** The search box. *)
Definition searchInput_onChange (value : string) : UI unit :=
  setSearchTerm value.

(** The header checkbox, rendered over the state [render]. *)
Definition headerCheckbox_onChange (render : State) (checked : bool) : UI unit :=
  if checked then
    setSelectedAppointments
      (map id (filter not_cancelado (filteredAppointments render)))
  else
    setSelectedAppointments [].

(** The checkbox of the row [app], rendered over the state [render]. *)
Definition rowCheckbox_onChange (render : State) (app : Appointment)
    (checked : bool) : UI unit :=
  if checked then
    setSelectedAppointments (selectedAppointments render ++ [id app])
  else
    setSelectedAppointments
      (filter (fun i => negb (i =? id app)) (selectedAppointments render)).

(** [handleCancelAppointment].  The component is mounted with the session's
    user, whose [id] the handler reads without a guard. *)
Definition handleCancelAppointment (user : User) (appointmentId : Z) : UI unit :=
  confirmed <- confirm "Tem certeza que deseja cancelar este agendamento?" ;;
  if confirmed : bool then
    r <- update {| patch_status := "cancelado";
                   match_id := IdEq appointmentId;
                   match_user_id := uid user |} ;;
    match upd_error r with
    | Some updateError =>
        alert ("Erro ao cancelar agendamento: " ++ message updateError)%string
    | None =>
        alert "Agendamento cancelado com sucesso!" ;;
        fetchAppointments (Some user)
    end
  else ret tt.

(** [handleCancelSelectedAppointments], rendered over the state [render]. *)
Definition handleCancelSelectedAppointments (render : State) (user : User)
    : UI unit :=
  let selected := selectedAppointments render in
  if (List.length selected =? 0)%nat then
    alert "Nenhum agendamento selecionado para cancelar."
  else
    confirmed <- confirm ("Tem certeza que deseja cancelar "
                          ++ Js.toString (List.length selected)
                          ++ " agendamento(s) selecionado(s)?")%string ;;
    if confirmed : bool then
      r <- update {| patch_status := "cancelado";
                     match_id := IdIn selected;
                     match_user_id := uid user |} ;;
      match upd_error r with
      | Some updateError =>
          alert ("Erro ao cancelar agendamentos selecionados: "
                 ++ message updateError)%string
      | None =>
          alert (Js.toString (List.length selected)
                 ++ " agendamento(s) cancelado(s) com sucesso!")%string ;;
          setSelectedAppointments [] ;;
          fetchAppointments (Some user)
      end
    else ret tt.

(** An event handler runs over the state the component last rendered. *)
Definition dispatch (handler : State -> UI unit) : UI unit :=
  fun w st => handler st w st.

(** The events of the selection engine.  A row's checkbox exists only for a
    row of the filtered list that is not cancelled (the guard around the
    [<input>]); the header checkbox and the search box are always there. *)
Inductive selection_step (w : World) : State -> State -> Prop :=
| step_row : forall st app checked,
    In app (filteredAppointments st) ->
    not_cancelado app = true ->
    selection_step w st
      (exec (dispatch (fun render => rowCheckbox_onChange render app checked)) w st)
| step_header : forall st checked,
    selection_step w st
      (exec (dispatch (fun render => headerCheckbox_onChange render checked)) w st)
| step_search : forall st value,
    selection_step w st (exec (searchInput_onChange value) w st).

(** Any sequence of such events. *)
Inductive selection_steps (w : World) : State -> State -> Prop :=
| steps_nil : forall st, selection_steps w st st
| steps_cons : forall st1 st2 st3,
    selection_step w st1 st2 ->
    selection_steps w st2 st3 ->
    selection_steps w st1 st3.

(** ** The vocabulary of the properties *)

(** [a] may stand before [b]: the comparator does not put [a] after [b]. *)
Definition comes_first_or_ties (a b : Appointment) : Prop :=
  compareAppointments a b <= 0.

(** The one pairing the status tier decides. *)
Definition pending_cancelado_pairing (a b : Appointment) : Prop :=
  (status a = "pending" /\ status b = "cancelado") \/
  (status a = "cancelado" /\ status b = "pending").

(** A list in the two-tier order: no cancelled row stands before a pending
    one, and any two rows outside that pairing stand in ascending time. *)
Definition sorted_two_tier (l : list Appointment) : Prop :=
  forall (i j : nat) (a b : Appointment),
    (i < j)%nat -> nth_error l i = Some a -> nth_error l j = Some b ->
    ~ (status a = "cancelado" /\ status b = "pending") /\
    (~ pending_cancelado_pairing a b -> scheduled_for a <= scheduled_for b).

(** The statuses the read of [fetchAppointments] asks for. *)
Definition fetchable (app : Appointment) : Prop :=
  status app = "pending" \/ status app = "cancelado".

(** The read [fetchAppointments] issues for [user_id] in the world [w]. *)
Definition issued_query (w : World) (user_id : string) : SelectQuery :=
  {| sq_user_id := user_id;
     sq_startOfToday := startOfToday w;
     sq_startOfTomorrow := startOfTomorrow w |}.

(** The question [handleCancelSelectedAppointments] asks over [render]. *)
Definition cancel_selected_question (render : State) : string :=
  ("Tem certeza que deseja cancelar "
   ++ Js.toString (List.length (selectedAppointments render))
   ++ " agendamento(s) selecionado(s)?")%string.

(** The batch update [handleCancelSelectedAppointments] issues over [render]. *)
Definition cancel_selected_request (render : State) (user : User)
    : UpdateRequest :=
  {| patch_status := "cancelado";
     match_id := IdIn (selectedAppointments render);
     match_user_id := uid user |}.

(** [needle] occurs in [s]: some text, then [needle], then some text. *)
Definition is_substring (needle s : string) : Prop :=
  exists pre post : string, s = (pre ++ needle ++ post)%string.

(** [l1] is [l2] with some elements left out, the order kept. *)
Inductive subsequence {A : Type} : list A -> list A -> Prop :=
| sub_nil : subsequence [] []
| sub_skip : forall x l1 l2, subsequence l1 l2 -> subsequence l1 (x :: l2)
| sub_keep : forall x l1 l2, subsequence l1 l2 -> subsequence (x :: l1) (x :: l2).

(** ** The mount effect and what is rendered *)

(** A realtime channel as [useEffect] configures it. *)
Record Channel : Type := mkChannel {
  channelName : string;
  ch_event : string;
  ch_schema : string;
  ch_table : string;
  ch_filter : string
}.

(** The body of [useEffect(..., [user, fetchAppointments])]: the first
    refresh, then the subscription.  The result is the channel the effect
    subscribes to and its cleanup unsubscribes from; none without a user. *)
Definition useEffect_body (user : option User) : UI (option Channel) :=
  match truthy_id user with
  | Some _ => fetchAppointments user
  | None =>
      setAppointments [] ;;
      setLoading false
  end ;;
  match truthy_id user with
  | None => ret None
  | Some user_id =>
      ret (Some {| channelName := ("scheduled_messages_user_" ++ user_id)%string;
                   ch_event := "*";
                   ch_schema := "public";
                   ch_table := "scheduled_messages";
                   ch_filter := ("user_id=eq." ++ user_id)%string |})
  end.

(** [fetchAppointments] with an identity, up to its [await]: the writes it
    makes at once and the read it issues.  The result is the answer the
    [await] delivers later. *)
Definition fetchAppointments_begin (user_id : string) : UI SelectResponse :=
  w <- world ;;
  setLoading true ;;
  setError None ;;
  select {| sq_user_id := user_id;
            sq_startOfToday := startOfToday w;
            sq_startOfTomorrow := startOfTomorrow w |}.

(** [fetchAppointments] from its [await] on, resumed with the answer [r] in
    whatever state the component is by then: the calls of [fetchAppointments]
    are not awaited, so other handlers and other refreshes may have run in
    between. *)
Definition fetchAppointments_resume (r : SelectResponse) : UI unit :=
  match sel_error r with
  | Some fetchError =>
      setError (Some (message fetchError)) ;;
      setAppointments []
  | None =>
      let fetchedAppointments :=
        match data r with Some rows => rows | None => [] end in
      setAppointments (Js.sort compareAppointments fetchedAppointments)
  end ;;
  setLoading false.

(** The [checked] prop of a row's checkbox:
    [selectedAppointments.includes(app.id)]. *)
Definition rowCheckbox_checked (st : State) (app : Appointment) : bool :=
  existsb (fun i => i =? id app) (selectedAppointments st).

(** The rows the header checkbox stands for:
    [filteredAppointments.filter(app => app.status !== 'cancelado')]. *)
Definition selectable (st : State) : list Appointment :=
  filter not_cancelado (filteredAppointments st).

(** The [checked] prop of the header checkbox. *)
Definition headerCheckbox_checked (st : State) : bool :=
  (List.length (selectedAppointments st) =? List.length (selectable st))%nat &&
  (0 <? List.length (selectable st))%nat.

(** The "Cancelar Selecionados (n)" button: there when something is selected,
    with the count it shows. *)
Definition cancelSelectedButton (st : State) : option nat :=
  if (0 <? List.length (selectedAppointments st))%nat
  then Some (List.length (selectedAppointments st))
  else None.

(** The controls of a table row: its checkbox (absent on a cancelled row)
    and whether it has a "Cancelar" button. *)
Record Row : Type := mkRow {
  row_app : Appointment;
  row_checkbox : option bool;
  row_cancelButton : bool
}.

Definition render_row (st : State) (app : Appointment) : Row :=
  {| row_app := app;
     row_checkbox :=
       if not_cancelado app then Some (rowCheckbox_checked st app) else None;
     row_cancelButton := not_cancelado app |}.

(** What the component returns, down to its controls (texts and styles are
    left out): the loading notice, the error notice, or the page with the
    search box, the bulk button and, when a row passes the filter, the
    table with its header checkbox. *)
Inductive View : Type :=
| Carregando
| ErroAoCarregar (msg : string)
| Lista (searchBox : string) (bulk : option nat)
        (table : option (bool * list Row)).

Definition page (st : State) : View :=
  Lista (searchTerm st) (cancelSelectedButton st)
    match filteredAppointments st with
    | [] => None
    | rows => Some (headerCheckbox_checked st, map (render_row st) rows)
    end.

(** [if (loading) ...; if (error) ...; return ...]: an empty error message
    is falsy. *)
Definition view (st : State) : View :=
  if loading st then Carregando
  else match error st with
       | Some msg => if (msg =? "")%string then page st else ErroAoCarregar msg
       | None => page st
       end.

(** A click on a control that is on the page.  The checkboxes are
    controlled: a click reports the opposite of the [checked] prop. *)
Inductive click (w : World) : State -> State -> Prop :=
| click_row : forall st app,
    In app (filteredAppointments st) ->
    not_cancelado app = true ->
    click w st
      (exec (dispatch (fun render =>
               rowCheckbox_onChange render app
                 (negb (rowCheckbox_checked render app)))) w st)
| click_header : forall st,
    filteredAppointments st <> [] ->
    click w st
      (exec (dispatch (fun render =>
               headerCheckbox_onChange render
                 (negb (headerCheckbox_checked render)))) w st)
| type_search : forall st value,
    click w st (exec (searchInput_onChange value) w st).

Inductive clicks (w : World) : State -> State -> Prop :=
| clicks_nil : forall st, clicks w st st
| clicks_cons : forall st1 st2 st3,
    click w st1 st2 -> clicks w st2 st3 -> clicks w st1 st3.

(** The question [handleCancelAppointment] asks. *)
Definition cancel_one_question : string :=
  "Tem certeza que deseja cancelar este agendamento?".

(** The update [handleCancelAppointment] issues. *)
Definition cancel_one_request (user : User) (appointmentId : Z)
    : UpdateRequest :=
  {| patch_status := "cancelado";
     match_id := IdEq appointmentId;
     match_user_id := uid user |}.

(** An effect that is a backend read. *)
Definition is_read (e : Effect) : bool :=
  match e with BackendSelect _ => true | _ => false end.

(** No two rows of the list tie under the comparator. *)
Definition tie_free (l : list Appointment) : Prop :=
  forall a b, In a l -> In b l -> compareAppointments a b = 0 -> a = b.

(** A world whose user declines every dialog. *)
Definition world_declining : World :=
  {| startOfToday := 1704067200000; startOfTomorrow := 1704153600000;
     window_confirm := fun _ => false;
     supabase_select := fun _ => {| data := None; sel_error := None |};
     supabase_update := fun _ => {| upd_error := None |} |}.

(** ** Sample data *)

(** Midnight of 2024-01-01 and of 2024-01-02 (UTC), as time values. *)
Definition jan1 : Z := 1704067200000.
Definition jan2 : Z := 1704153600000.

(** Pending, scheduled for 2024-01-02T10:00Z. *)
Definition row1 : Appointment :=
  {| id := 1; user_id := "u1"; phone_number := "11999"; message_text := "a";
     scheduled_for := 1704189600000; status := "pending" |}.

(** Cancelled, scheduled for 2024-01-01T08:00Z. *)
Definition row2 : Appointment :=
  {| id := 2; user_id := "u1"; phone_number := "22999"; message_text := "b";
     scheduled_for := 1704096000000; status := "cancelado" |}.

(** Pending, scheduled for 2024-01-01T09:00Z. *)
Definition row3 : Appointment :=
  {| id := 3; user_id := "u1"; phone_number := "11900"; message_text := "c";
     scheduled_for := 1704099600000; status := "pending" |}.

(** A row with a legacy status, scheduled between [row2] and [row1]. *)
Definition row_sent : Appointment :=
  {| id := 4; user_id := "u1"; phone_number := "33999"; message_text := "d";
     scheduled_for := 1704100000000; status := "sent" |}.

Definition u1 : User := {| uid := Some "u1" |}.

(** A world on 2024-01-01 whose user confirms every dialog and whose backend
    answers every read with [rows] and accepts every write. *)
Definition world_ok (rows : list Appointment) : World :=
  {| startOfToday := jan1; startOfTomorrow := jan2;
     window_confirm := fun _ => true;
     supabase_select := fun _ => {| data := Some rows; sel_error := None |};
     supabase_update := fun _ => {| upd_error := None |} |}.

(** The same day with a backend that fails every request. *)
Definition world_down : World :=
  {| startOfToday := jan1; startOfTomorrow := jan2;
     window_confirm := fun _ => true;
     supabase_select := fun _ =>
       {| data := None; sel_error := Some {| message := "network" |} |};
     supabase_update := fun _ =>
       {| upd_error := Some {| message := "network" |} |} |}.

(** A state past loading that shows [rows] with [selected] ticked. *)
Definition showing (rows : list Appointment) (selected : list Z) : State :=
  {| appointments := rows; loading := false; error := None;
     searchTerm := ""; selectedAppointments := selected |}.

(** The component after mounting for [u1], loading the three sample rows and
    ticking the checkbox of [row1]. *)
Definition ticked_row1 : State :=
  exec (dispatch (fun render => rowCheckbox_onChange render row1 true))
       (world_ok [row1; row2; row3])
       (exec (fetchAppointments (Some u1)) (world_ok [row1; row2; row3])
             initial_state).

(** ** Sorting with a comparator *)

Section SortFacts.
Context {A : Type}.
Variable comparefn : A -> A -> Z.
Variable dom : A -> Prop.

Let le (a b : A) : Prop := comparefn a b <= 0.

Hypothesis le_flip : forall a b, 0 < comparefn a b -> le b a.
Hypothesis le_trans : forall a b c, dom a -> dom b -> dom c ->
  le a b -> le b c -> le a c.

Lemma insert_perm : forall x l, Permutation (x :: l) (Js.insert comparefn x l).
Proof.
  intros x l; induction l as [| y l IH]; simpl.
  - apply Permutation_refl.
  - destruct (0 <? comparefn x y).
    + eapply Permutation_trans; [apply perm_swap |].
      apply perm_skip, IH.
    + apply Permutation_refl.
Qed.

Lemma sort_perm : forall l, Permutation l (Js.sort comparefn l).
Proof.
  induction l as [| x l IH]; simpl.
  - constructor.
  - eapply Permutation_trans; [apply perm_skip, IH | apply insert_perm].
Qed.

Lemma insert_sorted : forall x l,
  dom x -> Forall dom l ->
  StronglySorted le l -> StronglySorted le (Js.insert comparefn x l).
Proof.
  intros x l Hx; induction l as [| y l IH]; intros Hdom Hs; simpl.
  - repeat constructor.
  - inversion Hdom as [| ? ? Hy Hl]; subst.
    apply StronglySorted_inv in Hs; destruct Hs as [Hs Hall].
    destruct (0 <? comparefn x y) eqn:E.
    + apply Z.ltb_lt in E.
      constructor; [apply IH; assumption |].
      eapply Permutation_Forall; [apply insert_perm |].
      constructor; [apply le_flip; exact E | exact Hall].
    + apply Z.ltb_ge in E.
      constructor; [constructor; assumption |].
      constructor; [exact E |].
      rewrite Forall_forall in Hall, Hl |- *.
      intros z Hz.
      apply (le_trans x y z); auto.
Qed.

Lemma sort_sorted : forall l,
  Forall dom l -> StronglySorted le (Js.sort comparefn l).
Proof.
  induction l as [| x l IH]; intros Hdom; simpl.
  - constructor.
  - inversion Hdom; subst.
    apply insert_sorted; auto.
    eapply Permutation_Forall; [apply sort_perm | assumption].
Qed.

Lemma StronglySorted_nth : forall l i j a b,
  StronglySorted le l -> (i < j)%nat ->
  nth_error l i = Some a -> nth_error l j = Some b -> le a b.
Proof.
  induction l as [| x l IH]; intros i j a b Hs Hij Ha Hb.
  - destruct i; discriminate.
  - apply StronglySorted_inv in Hs; destruct Hs as [Hs Hall].
    destruct j as [| j]; [lia |].
    destruct i as [| i]; simpl in *.
    + injection Ha as <-.
      rewrite Forall_forall in Hall.
      apply Hall. eapply nth_error_In; eassumption.
    + apply (IH i j); auto; lia.
Qed.
End SortFacts.

(** ** The comparator *)

Ltac status_cases :=
  repeat match goal with
  | |- context [(?s =? ?t)%string] => destruct (String.eqb_spec s t)
  | H : context [(?s =? ?t)%string] |- _ => destruct (String.eqb_spec s t)
  end; simpl in *.

Lemma compare_flip : forall a b,
  compareAppointments b a = - compareAppointments a b.
Proof.
  intros a b; unfold compareAppointments.
  status_cases; try congruence; lia.
Qed.

Lemma compare_le_flip : forall a b,
  0 < compareAppointments a b -> comes_first_or_ties b a.
Proof.
  intros a b H; unfold comes_first_or_ties.
  rewrite compare_flip; lia.
Qed.

Lemma compare_total : forall a b,
  comes_first_or_ties a b \/ comes_first_or_ties b a.
Proof.
  intros a b; unfold comes_first_or_ties.
  rewrite (compare_flip a b); lia.
Qed.

Lemma compare_trans_fetchable : forall a b c,
  fetchable a -> fetchable b -> fetchable c ->
  comes_first_or_ties a b -> comes_first_or_ties b c -> comes_first_or_ties a c.
Proof.
  unfold fetchable, comes_first_or_ties, compareAppointments.
  intros a b c [Ha | Ha] [Hb | Hb] [Hc | Hc]; rewrite Ha, Hb, Hc; simpl; lia.
Qed.

Lemma le_two_tier : forall a b,
  comes_first_or_ties a b ->
  ~ (status a = "cancelado" /\ status b = "pending") /\
  (~ pending_cancelado_pairing a b -> scheduled_for a <= scheduled_for b).
Proof.
  unfold comes_first_or_ties, compareAppointments, pending_cancelado_pairing.
  intros a b H; split.
  - intros [Ha Hb]; rewrite Ha, Hb in H; simpl in H; lia.
  - intros Hn. status_cases; try lia; exfalso; apply Hn; auto.
Qed.

Lemma matches_fetchable : forall q app, matches q app = true -> fetchable app.
Proof.
  unfold matches, fetchable; intros q app H.
  apply andb_true_iff in H; destruct H as [_ H].
  apply orb_true_iff in H; destruct H as [H | H].
  - left; apply String.eqb_eq; exact H.
  - right. apply andb_true_iff in H; destruct H as [H _].
    apply andb_true_iff in H; destruct H as [H _].
    apply String.eqb_eq; exact H.
Qed.

Lemma sort_two_tier : forall l,
  Forall fetchable l -> sorted_two_tier (Js.sort compareAppointments l).
Proof.
  intros l Hl i j a b Hij Ha Hb.
  apply le_two_tier.
  eapply (StronglySorted_nth compareAppointments); eauto.
  apply (sort_sorted compareAppointments fetchable); auto.
  - apply compare_le_flip.
  - apply compare_trans_fetchable.
Qed.

(** ** The synchronizer's refresh *)

Lemma fetch_ok_state : forall w user user_id st,
  truthy_id user = Some user_id ->
  sel_error (supabase_select w (issued_query w user_id)) = None ->
  exec (fetchAppointments user) w st =
    {| appointments :=
         Js.sort compareAppointments
           match data (supabase_select w (issued_query w user_id)) with
           | Some rows => rows
           | None => []
           end;
       loading := false; error := None;
       searchTerm := searchTerm st;
       selectedAppointments := selectedAppointments st |}.
Proof.
  intros w user user_id st Hu He.
  unfold exec, fetchAppointments, bind, world; rewrite Hu; simpl.
  unfold issued_query in He; rewrite He; reflexivity.
Qed.

Lemma fetch_failed_state : forall w user user_id st fetchError,
  truthy_id user = Some user_id ->
  sel_error (supabase_select w (issued_query w user_id)) = Some fetchError ->
  exec (fetchAppointments user) w st =
    {| appointments := []; loading := false;
       error := Some (message fetchError);
       searchTerm := searchTerm st;
       selectedAppointments := selectedAppointments st |}.
Proof.
  intros w user user_id st fetchError Hu He.
  unfold exec, fetchAppointments, bind, world; rewrite Hu; simpl.
  unfold issued_query in He; rewrite He; reflexivity.
Qed.

Lemma fetch_absent_state : forall w user st,
  truthy_id user = None ->
  fetchAppointments user w st =
    (tt,
     {| appointments := []; loading := false; error := error st;
        searchTerm := searchTerm st;
        selectedAppointments := selectedAppointments st |},
     []).
Proof.
  intros w user st Hu.
  unfold fetchAppointments, bind, world; rewrite Hu; reflexivity.
Qed.

Lemma fetch_present_trace : forall w user user_id st,
  truthy_id user = Some user_id ->
  trace (fetchAppointments user) w st = [BackendSelect (issued_query w user_id)].
Proof.
  intros w user user_id st Hu.
  unfold trace, fetchAppointments, bind, world; rewrite Hu; simpl.
  unfold issued_query.
  destruct (sel_error _); reflexivity.
Qed.

(** C1.  When the read succeeds and the backend answers with rows [S] that
    the issued filter asks for, the list stored by the refresh is a
    rearrangement of [S] in the two-tier order: no cancelled row before a
    pending one, and every two rows outside the pending/cancelado pairing in
    ascending [scheduled_for]. *)
Theorem refresh_stores_sorted :
  forall (w : World) (user : option User) (user_id : string) (st : State)
         (S : list Appointment),
    truthy_id user = Some user_id ->
    sel_error (supabase_select w (issued_query w user_id)) = None ->
    data (supabase_select w (issued_query w user_id)) = Some S ->
    Forall (fun app => matches (issued_query w user_id) app = true) S ->
    appointments (exec (fetchAppointments user) w st)
      = Js.sort compareAppointments S /\
    Permutation S (appointments (exec (fetchAppointments user) w st)) /\
    sorted_two_tier (appointments (exec (fetchAppointments user) w st)).
Proof.
  intros w user user_id st S Hu He Hd Hq.
  rewrite (fetch_ok_state w user user_id st Hu He), Hd; simpl.
  split; [reflexivity | split].
  - apply sort_perm.
  - apply sort_two_tier.
    eapply Forall_impl; [| exact Hq].
    intros app; apply matches_fetchable.
Qed.

Lemma refresh_stores_sorted_witness :
  Permutation [row1; row2; row3]
    (appointments (exec (fetchAppointments (Some u1))
                        (world_ok [row1; row2; row3]) initial_state)) /\
  sorted_two_tier
    (appointments (exec (fetchAppointments (Some u1))
                        (world_ok [row1; row2; row3]) initial_state)).
Proof.
  apply (refresh_stores_sorted (world_ok [row1; row2; row3]) (Some u1) "u1"
           initial_state [row1; row2; row3]).
  - reflexivity.
  - reflexivity.
  - reflexivity.
  - repeat constructor.
Defined.

(** The scenarios of the specification: a pending row stands before a
    cancelled one whatever their times, and pending rows stand by time. *)
Example refresh_scenario_pending_first :
  map id (appointments (exec (fetchAppointments (Some u1))
                             (world_ok [row1; row2]) initial_state)) = [1; 2]
  /\
  map id (appointments (exec (fetchAppointments (Some u1))
                             (world_ok [row2; row1; row3]) initial_state))
    = [3; 1; 2].
Proof. split; reflexivity. Qed.

(** ** The ordering rule *)

(** C2, as stated, fails: with a legacy status in play the comparator is not
    transitive.  The cancelled [row2] may stand before the legacy [row_sent]
    (earlier time), [row_sent] before the pending [row1] (earlier time), yet
    [row2] must stand after [row1] (status tier). *)
Lemma comparator_not_transitive :
  comes_first_or_ties row2 row_sent /\
  comes_first_or_ties row_sent row1 /\
  ~ comes_first_or_ties row2 row1.
Proof.
  unfold comes_first_or_ties; repeat split; vm_compute; congruence.
Qed.

(** With those three rows no arrangement at all is in the two-tier order,
    whatever the sorting algorithm does with them. *)
Remark legacy_status_admits_no_order : forall l : list Appointment,
  Permutation [row2; row_sent; row1] l -> ~ sorted_two_tier l.
Proof.
  intros l Hp Hs.
  assert (H2 : In row2 l) by (eapply Permutation_in; [exact Hp | simpl; auto]).
  assert (Hm : In row_sent l) by (eapply Permutation_in; [exact Hp | simpl; auto]).
  assert (H1 : In row1 l) by (eapply Permutation_in; [exact Hp | simpl; auto]).
  apply In_nth_error in H2, Hm, H1.
  destruct H2 as [i2 H2], Hm as [im Hm], H1 as [i1 H1].
  assert (L12 : (i1 < i2)%nat).
  { destruct (Nat.lt_trichotomy i1 i2) as [Hlt | [Heq | Hgt]]; [exact Hlt | |].
    - subst; rewrite H2 in H1; discriminate.
    - exfalso. apply (proj1 (Hs i2 i1 row2 row1 Hgt H2 H1)); split; reflexivity. }
  assert (L2m : (i2 < im)%nat).
  { destruct (Nat.lt_trichotomy i2 im) as [Hlt | [Heq | Hgt]]; [exact Hlt | |].
    - subst; rewrite H2 in Hm; discriminate.
    - exfalso.
      assert (scheduled_for row_sent <= scheduled_for row2) as Hle.
      { apply (proj2 (Hs im i2 row_sent row2 Hgt Hm H2)).
        intros [[Ha _] | [Ha _]]; discriminate. }
      vm_compute in Hle; congruence. }
  assert (Lm1 : (im < i1)%nat).
  { destruct (Nat.lt_trichotomy im i1) as [Hlt | [Heq | Hgt]]; [exact Hlt | |].
    - subst; rewrite Hm in H1; discriminate.
    - exfalso.
      assert (scheduled_for row1 <= scheduled_for row_sent) as Hle.
      { apply (proj2 (Hs i1 im row1 row_sent Hgt H1 Hm)).
        intros [[_ Hb] | [_ Hb]]; discriminate. }
      vm_compute in Hle; congruence. }
  lia.
Qed.

(** C2, amended.  Over every status the comparator is antisymmetric
    ([compare b a] is the opposite of [compare a b]) and total; it is
    transitive on the rows whose status is pending or cancelado, the only
    ones the read of the refresh asks for. *)
Theorem comparator_total_preorder :
  forall a b c : Appointment,
    compareAppointments b a = - compareAppointments a b /\
    (comes_first_or_ties a b \/ comes_first_or_ties b a) /\
    (fetchable a -> fetchable b -> fetchable c ->
     comes_first_or_ties a b -> comes_first_or_ties b c ->
     comes_first_or_ties a c).
Proof.
  intros a b c; split; [apply compare_flip | split].
  - apply compare_total.
  - apply compare_trans_fetchable.
Qed.

Lemma comparator_total_preorder_witness :
  comes_first_or_ties row3 row2.
Proof.
  apply (proj2 (proj2 (comparator_total_preorder row3 row1 row2))).
  - left; reflexivity.
  - left; reflexivity.
  - right; reflexivity.
  - unfold comes_first_or_ties; vm_compute; congruence.
  - unfold comes_first_or_ties; vm_compute; congruence.
Defined.

(** ** The selection set *)

Lemma selection_step_frame : forall w st st',
  selection_step w st st' ->
  appointments st' = appointments st /\
  forall i, In i (selectedAppointments st') ->
    In i (selectedAppointments st) \/
    exists app, In app (appointments st) /\ not_cancelado app = true /\ id app = i.
Proof.
  intros w st st' Hstep; destruct Hstep as [st app checked Hin Hnc | st checked | st value].
  - unfold filteredAppointments in Hin; apply filter_In in Hin; destruct Hin as [Hin _].
    destruct checked; (split; [reflexivity |]); simpl; intros i Hi.
    + apply in_app_or in Hi; destruct Hi as [Hi | [<- | []]]; [left; exact Hi |].
      right; exists app; auto.
    + apply filter_In in Hi; left; apply Hi.
  - destruct checked; (split; [reflexivity |]); simpl; intros i Hi; [| contradiction].
    apply in_map_iff in Hi; destruct Hi as [app [<- Hi]].
    apply filter_In in Hi; destruct Hi as [Hi Hnc].
    unfold filteredAppointments in Hi; apply filter_In in Hi.
    right; exists app; intuition.
  - split; [reflexivity |]; simpl; auto.
Qed.

Lemma selection_steps_frame : forall w st st',
  selection_steps w st st' ->
  appointments st' = appointments st /\
  forall i, In i (selectedAppointments st') ->
    In i (selectedAppointments st) \/
    exists app, In app (appointments st) /\ not_cancelado app = true /\ id app = i.
Proof.
  intros w st st' Hsteps; induction Hsteps as [st | st1 st2 st3 Hstep _ IH].
  - split; auto.
  - apply selection_step_frame in Hstep; destruct Hstep as [Happ Hsel].
    destruct IH as [Happ' Hsel'].
    split; [congruence |].
    intros i Hi; apply Hsel' in Hi; destruct Hi as [Hi | Hi].
    + apply Hsel; exact Hi.
    + right; rewrite <- Happ; exact Hi.
Qed.

Lemma NoDup_map_inj : forall (A B : Type) (f : A -> B) (l : list A) (x y : A),
  NoDup (map f l) -> In x l -> In y l -> f x = f y -> x = y.
Proof.
  intros A B f l; induction l as [| a l IH]; intros x y Hnd Hx Hy Hf; simpl in *.
  - contradiction.
  - inversion Hnd as [| ? ? Hnotin Hnd']; subst.
    destruct Hx as [-> | Hx], Hy as [-> | Hy]; auto.
    + exfalso; apply Hnotin; rewrite Hf; apply in_map; exact Hy.
    + exfalso; apply Hnotin; rewrite <- Hf; apply in_map; exact Hx.
Qed.

(** C3.  Over a list whose identifiers are distinct, starting from the empty
    selection, no sequence of row-checkbox, header-checkbox and search-box
    events puts the identifier of a cancelled row in the selection. *)
Theorem cancelled_never_selected :
  forall (w : World) (st st' : State),
    selectedAppointments st = [] ->
    NoDup (map id (appointments st)) ->
    selection_steps w st st' ->
    forall r : Appointment,
      In r (appointments st') -> status r = "cancelado" ->
      ~ In (id r) (selectedAppointments st').
Proof.
  intros w st st' Hempty Hnd Hsteps r Hr Hc Hsel.
  apply selection_steps_frame in Hsteps; destruct Hsteps as [Happ Hinv].
  apply Hinv in Hsel; rewrite Hempty in Hsel.
  destruct Hsel as [[] | [app [Hin [Hnc Hid]]]].
  rewrite Happ in Hr.
  assert (app = r) by (eapply NoDup_map_inj; eauto); subst app.
  unfold not_cancelado in Hnc; rewrite Hc in Hnc; discriminate.
Qed.

Lemma cancelled_never_selected_witness :
  ~ In (id row2)
      (selectedAppointments
         (exec (dispatch (fun render => rowCheckbox_onChange render row1 false))
               (world_ok [])
               (exec (dispatch (fun render => headerCheckbox_onChange render true))
                     (world_ok [])
                     (showing [row1; row2; row3] [])))).
Proof.
  apply (cancelled_never_selected (world_ok []) (showing [row1; row2; row3] [])).
  - reflexivity.
  - repeat constructor; simpl; intuition discriminate.
  - eapply steps_cons; [apply step_header |].
    eapply steps_cons; [| apply steps_nil].
    apply (step_row (world_ok []) _ row1 false).
    + simpl; auto.
    + reflexivity.
  - simpl; auto.
  - reflexivity.
Defined.

Lemma fetch_keeps_selection : forall w user st,
  selectedAppointments (exec (fetchAppointments user) w st)
    = selectedAppointments st.
Proof.
  intros w user st.
  destruct (truthy_id user) as [user_id |] eqn:Hu.
  - destruct (sel_error (supabase_select w (issued_query w user_id)))
      as [fetchError |] eqn:He.
    + rewrite (fetch_failed_state w user user_id st fetchError Hu He); reflexivity.
    + rewrite (fetch_ok_state w user user_id st Hu He); reflexivity.
  - unfold exec; rewrite (fetch_absent_state w user st Hu); reflexivity.
Qed.

(** C4, as stated, fails: the selection is not cut down to the visible rows.
    With [row1] ticked, typing "229" hides [row1] and leaves it selected; and
    a re-fetch that no longer returns [row1] leaves it selected too. *)
Lemma selection_outlives_visibility :
  selectedAppointments ticked_row1 = [1] /\
  (In 1 (selectedAppointments
           (exec (searchInput_onChange "229") (world_ok [row1; row2; row3])
                 ticked_row1)) /\
   ~ In 1 (map id (filteredAppointments
           (exec (searchInput_onChange "229") (world_ok [row1; row2; row3])
                 ticked_row1)))) /\
  (In 1 (selectedAppointments
           (exec (fetchAppointments (Some u1)) (world_ok [row2]) ticked_row1)) /\
   ~ In 1 (map id (filteredAppointments
           (exec (fetchAppointments (Some u1)) (world_ok [row2]) ticked_row1)))).
Proof.
  repeat split; simpl; intuition discriminate.
Qed.

(** C4, amended.  A change of the search term and a re-fetch both leave the
    selection exactly as it was. *)
Theorem visibility_change_keeps_selection :
  forall (w : World) (st : State) (value : string) (user : option User),
    selectedAppointments (exec (searchInput_onChange value) w st)
      = selectedAppointments st /\
    selectedAppointments (exec (fetchAppointments user) w st)
      = selectedAppointments st.
Proof.
  intros w st value user; split.
  - reflexivity.
  - apply fetch_keeps_selection.
Qed.

Example selectAllVisible_scenario :
  selectedAppointments
    (exec (dispatch (fun render => headerCheckbox_onChange render true))
          (world_ok []) (showing [row1; row2; row3] [2; 7]))
  = [1; 3].
Proof. reflexivity. Qed.

(** ** Bulk cancel *)

(** C6.  With nothing selected the bulk cancel only shows a notice: no
    backend call, the state untouched.  With a selection, once confirmed: if
    the batch update fails the error is shown and the state, selection
    included, is untouched; if it succeeds the selection is emptied and the
    refresh runs on the state so cleared. *)
Theorem cancelSelected_contract :
  forall (w : World) (st : State) (user : User),
    (selectedAppointments st = [] ->
     dispatch (fun render => handleCancelSelectedAppointments render user) w st
       = (tt, st, [Alert "Nenhum agendamento selecionado para cancelar."])) /\
    (selectedAppointments st <> [] ->
     window_confirm w (cancel_selected_question st) = true ->
     forall updateError : PostgrestError,
       upd_error (supabase_update w (cancel_selected_request st user))
         = Some updateError ->
       dispatch (fun render => handleCancelSelectedAppointments render user) w st
         = (tt, st,
            [Confirm (cancel_selected_question st);
             BackendUpdate (cancel_selected_request st user);
             Alert ("Erro ao cancelar agendamentos selecionados: "
                    ++ message updateError)%string])) /\
    (selectedAppointments st <> [] ->
     window_confirm w (cancel_selected_question st) = true ->
     upd_error (supabase_update w (cancel_selected_request st user)) = None ->
     selectedAppointments
       (exec (dispatch (fun render => handleCancelSelectedAppointments render user))
             w st) = [] /\
     exec (dispatch (fun render => handleCancelSelectedAppointments render user)) w st
       = exec (fetchAppointments (Some user)) w
              (exec (setSelectedAppointments []) w st) /\
     trace (dispatch (fun render => handleCancelSelectedAppointments render user)) w st
       = [Confirm (cancel_selected_question st);
          BackendUpdate (cancel_selected_request st user);
          Alert (Js.toString (List.length (selectedAppointments st))
                 ++ " agendamento(s) cancelado(s) com sucesso!")%string]
         ++ trace (fetchAppointments (Some user)) w
                  (exec (setSelectedAppointments []) w st)).
Proof.
  intros w st user.
  pose proof (fetch_keeps_selection w (Some user)
                (exec (setSelectedAppointments []) w st)) as Hk.
  unfold dispatch, exec, trace, handleCancelSelectedAppointments,
    cancel_selected_question, cancel_selected_request in *; cbv beta.
  split; [| split].
  - intros ->; reflexivity.
  - intros Hne Hc updateError Hu.
    destruct (selectedAppointments st) as [| i sel] eqn:Hsel; [congruence |].
    unfold bind, confirm, update, alert.
    change (List.length (i :: sel) =? 0)%nat with false; cbv beta iota.
    rewrite Hc; cbv beta iota; rewrite Hu; reflexivity.
  - intros Hne Hc Hu.
    destruct (selectedAppointments st) as [| i sel] eqn:Hsel; [congruence |].
    unfold bind, confirm, update, alert.
    change (List.length (i :: sel) =? 0)%nat with false; cbv beta iota.
    rewrite Hc; cbv beta iota; rewrite Hu; cbv beta iota.
    destruct (fetchAppointments (Some user) w
                (snd (fst (setSelectedAppointments [] w st)))) as [[[] st2] t2] eqn:Hf.
    simpl in *. rewrite Hf. simpl. repeat split. exact Hk.
Qed.

Lemma cancelSelected_contract_witness :
  dispatch (fun render => handleCancelSelectedAppointments render u1)
           (world_ok [row1]) (showing [row1] [])
    = (tt, showing [row1] [],
       [Alert "Nenhum agendamento selecionado para cancelar."]) /\
  dispatch (fun render => handleCancelSelectedAppointments render u1)
           world_down (showing [row1; row3] [1; 3])
    = (tt, showing [row1; row3] [1; 3],
       [Confirm "Tem certeza que deseja cancelar 2 agendamento(s) selecionado(s)?";
        BackendUpdate {| patch_status := "cancelado"; match_id := IdIn [1; 3];
                         match_user_id := Some "u1" |};
        Alert "Erro ao cancelar agendamentos selecionados: network"]) /\
  selectedAppointments
    (exec (dispatch (fun render => handleCancelSelectedAppointments render u1))
          (world_ok [row2]) (showing [row1; row3] [1; 3])) = [].
Proof.
  split; [| split].
  - apply (proj1 (cancelSelected_contract (world_ok [row1]) (showing [row1] []) u1)).
    reflexivity.
  - refine (proj1 (proj2 (cancelSelected_contract world_down
                            (showing [row1; row3] [1; 3]) u1))
                  _ _ {| message := "network" |} _).
    + discriminate.
    + reflexivity.
    + reflexivity.
  - apply (proj2 (proj2 (cancelSelected_contract (world_ok [row2])
                           (showing [row1; row3] [1; 3]) u1))).
    + discriminate.
    + reflexivity.
    + reflexivity.
Defined.

(** A successful bulk cancel, end to end: one question, one batch update
    scoped to the user, the notice, then the read of the refresh. *)
Example cancelSelected_scenario :
  dispatch (fun render => handleCancelSelectedAppointments render u1)
           (world_ok [row2]) (showing [row1; row3] [1; 3])
  = (tt, showing [row2] [],
     [Confirm "Tem certeza que deseja cancelar 2 agendamento(s) selecionado(s)?";
      BackendUpdate {| patch_status := "cancelado"; match_id := IdIn [1; 3];
                       match_user_id := Some "u1" |};
      Alert "2 agendamento(s) cancelado(s) com sucesso!";
      BackendSelect {| sq_user_id := "u1"; sq_startOfToday := jan1;
                       sq_startOfTomorrow := jan2 |}]).
Proof. reflexivity. Qed.

(** A successful single cancel: one update matching the row and the user,
    then one read. *)
Example cancelOne_scenario :
  trace (handleCancelAppointment u1 5) (world_ok [row2]) (showing [row1] [])
  = [Confirm "Tem certeza que deseja cancelar este agendamento?";
     BackendUpdate {| patch_status := "cancelado"; match_id := IdEq 5;
                      match_user_id := Some "u1" |};
     Alert "Agendamento cancelado com sucesso!";
     BackendSelect {| sq_user_id := "u1"; sq_startOfToday := jan1;
                      sq_startOfTomorrow := jan2 |}].
Proof. reflexivity. Qed.

(** ** Refresh without an identity, and a failed refresh *)

(** C7.  With no user, or a user whose [id] is missing or empty, the refresh
    empties the list, clears the loading flag and calls nothing. *)
Theorem refresh_without_identity :
  forall (w : World) (user : option User) (st : State),
    truthy_id user = None ->
    appointments (exec (fetchAppointments user) w st) = [] /\
    loading (exec (fetchAppointments user) w st) = false /\
    trace (fetchAppointments user) w st = [].
Proof.
  intros w user st Hu.
  unfold exec, trace; rewrite (fetch_absent_state w user st Hu).
  repeat split.
Qed.

Lemma refresh_without_identity_witness :
  appointments (exec (fetchAppointments None) (world_ok [row1])
                     (showing [row1] [])) = [] /\
  loading (exec (fetchAppointments None) (world_ok [row1])
                (showing [row1] [])) = false /\
  trace (fetchAppointments None) (world_ok [row1]) (showing [row1] []) = [].
Proof.
  apply (refresh_without_identity (world_ok [row1]) None (showing [row1] [])).
  reflexivity.
Defined.

Example refresh_user_without_id :
  truthy_id (Some {| uid := None |}) = None /\
  truthy_id (Some {| uid := Some "" |}) = None /\
  fetchAppointments (Some {| uid := None |}) (world_ok [row1]) initial_state
    = (tt, showing [] [], []).
Proof. repeat split. Qed.

(** C8.  When the read fails, the refresh stores the error's message, empties
    the list and clears the loading flag. *)
Theorem refresh_failure :
  forall (w : World) (user : option User) (user_id : string) (st : State)
         (fetchError : PostgrestError),
    truthy_id user = Some user_id ->
    sel_error (supabase_select w (issued_query w user_id)) = Some fetchError ->
    error (exec (fetchAppointments user) w st) = Some (message fetchError) /\
    appointments (exec (fetchAppointments user) w st) = [] /\
    loading (exec (fetchAppointments user) w st) = false.
Proof.
  intros w user user_id st fetchError Hu He.
  rewrite (fetch_failed_state w user user_id st fetchError Hu He).
  repeat split.
Qed.

Lemma refresh_failure_witness :
  error (exec (fetchAppointments (Some u1)) world_down (showing [row1] [1]))
    = Some "network" /\
  appointments (exec (fetchAppointments (Some u1)) world_down (showing [row1] [1]))
    = [] /\
  loading (exec (fetchAppointments (Some u1)) world_down (showing [row1] [1]))
    = false.
Proof.
  apply (refresh_failure world_down (Some u1) "u1" (showing [row1] [1])
           {| message := "network" |}).
  - reflexivity.
  - reflexivity.
Defined.

(** C10.  A refresh without an identity leaves the error field as it was: an
    error left by an earlier failed read stays. *)
Theorem refresh_without_identity_keeps_error :
  forall (w : World) (user : option User) (st : State),
    truthy_id user = None ->
    error (exec (fetchAppointments user) w st) = error st.
Proof.
  intros w user st Hu.
  unfold exec; rewrite (fetch_absent_state w user st Hu); reflexivity.
Qed.

Lemma refresh_without_identity_keeps_error_witness :
  error (exec (fetchAppointments None) world_down
              (exec (fetchAppointments (Some u1)) world_down initial_state))
    = Some "network".
Proof.
  apply (refresh_without_identity_keeps_error world_down None
           (exec (fetchAppointments (Some u1)) world_down initial_state)).
  reflexivity.
Defined.

(** The error field is reset by a refresh that issues its read. *)
Example refresh_with_identity_resets_error :
  error (exec (fetchAppointments (Some u1)) (world_ok [row1])
              (exec (fetchAppointments (Some u1)) world_down initial_state))
    = None.
Proof. reflexivity. Qed.

(** ** The search filter *)

Lemma startsWith_spec : forall needle s,
  Js.startsWith s needle = true <-> exists post, s = (needle ++ post)%string.
Proof.
  induction needle as [| c needle IH]; intros s; simpl.
  - split; [intros _; exists s; reflexivity | reflexivity].
  - destruct s as [| d s]; simpl.
    + split; [discriminate | intros [post H]; discriminate].
    + rewrite andb_true_iff, IH, Ascii.eqb_eq.
      split.
      * intros [-> [post ->]]; exists post; reflexivity.
      * intros [post H]; injection H as -> ->; split; [reflexivity | eauto].
Qed.

Lemma includes_spec : forall s needle,
  Js.includes s needle = true <-> is_substring needle s.
Proof.
  unfold is_substring.
  induction s as [| d s IH]; intros needle; simpl;
    rewrite orb_true_iff, startsWith_spec.
  - split.
    + intros [[post H] | H]; [| discriminate].
      exists "", post; exact H.
    + intros [pre [post H]]; left.
      destruct pre; [exists post; exact H | discriminate].
  - rewrite IH; split.
    + intros [[post H] | [pre [post H]]].
      * exists "", post; exact H.
      * exists (String d pre), post; simpl; rewrite H; reflexivity.
    + intros [pre [post H]].
      destruct pre as [| c pre]; simpl in H.
      * left; exists post; exact H.
      * right; injection H as _ H; exists pre, post; exact H.
Qed.

Lemma filter_subsequence : forall (A : Type) (f : A -> bool) (l : list A),
  subsequence (filter f l) l.
Proof.
  intros A f l; induction l as [| x l IH]; simpl.
  - constructor.
  - destruct (f x); constructor; exact IH.
Qed.

(** C9.  The rows shown are exactly the stored rows whose [phone_number]
    contains the search term, character for character, in the stored order;
    typing a search term changes neither the stored list nor the selection. *)
Theorem search_filter_contract :
  forall (w : World) (st : State) (value : string),
    (forall app : Appointment,
       In app (filteredAppointments st) <->
       In app (appointments st) /\
       is_substring (searchTerm st) (phone_number app)) /\
    subsequence (filteredAppointments st) (appointments st) /\
    searchTerm (exec (searchInput_onChange value) w st) = value /\
    appointments (exec (searchInput_onChange value) w st) = appointments st /\
    selectedAppointments (exec (searchInput_onChange value) w st)
      = selectedAppointments st.
Proof.
  intros w st value; split; [| split; [apply filter_subsequence | repeat split]].
  intros app; unfold filteredAppointments.
  rewrite filter_In, includes_spec; reflexivity.
Qed.

(** The scenario of the specification: the term "119" over the phone
    numbers 11999, 22999 and 11900; and a term in another case finds
    nothing. *)
Example search_scenario :
  map phone_number
    (filteredAppointments
       (exec (searchInput_onChange "119") (world_ok [])
             (showing [row1; row2; row3] [1]))) = ["11999"; "11900"] /\
  Js.includes "abc" "B" = false /\
  Js.includes "abc" "b" = true /\
  Js.includes "abc" "" = true.
Proof. repeat split. Qed.

(** ** Selecting all that is shown *)

Lemma not_cancelado_spec : forall app,
  not_cancelado app = true <-> status app <> "cancelado".
Proof.
  intros app; unfold not_cancelado.
  rewrite negb_true_iff; apply String.eqb_neq.
Qed.

Lemma map_filter_filter_subsequence :
  forall (A B : Type) (f : A -> B) (p q : A -> bool) (l : list A),
    subsequence (map f (filter p (filter q l))) (map f l).
Proof.
  intros A B f p q l; induction l as [| x l IH]; simpl.
  - constructor.
  - destruct (q x); simpl; [destruct (p x); simpl |]; constructor; exact IH.
Qed.

(** C5.  Ticking the header checkbox makes the selection, whatever it was,
    exactly the identifiers of the stored rows whose [phone_number] contains
    the search term and whose [status] is not cancelado, in the stored
    order; clearing it empties the selection; so ticking and then clearing
    leaves the selection empty. *)
Theorem selectAllVisible_contract :
  forall (w : World) (st : State),
    (forall i : Z,
       In i (selectedAppointments
               (exec (dispatch (fun render => headerCheckbox_onChange render true))
                     w st)) <->
       exists app : Appointment,
         In app (appointments st) /\
         is_substring (searchTerm st) (phone_number app) /\
         status app <> "cancelado" /\
         id app = i) /\
    subsequence
      (selectedAppointments
         (exec (dispatch (fun render => headerCheckbox_onChange render true)) w st))
      (map id (appointments st)) /\
    selectedAppointments
      (exec (dispatch (fun render => headerCheckbox_onChange render false)) w st)
      = [] /\
    selectedAppointments
      (exec (dispatch (fun render => headerCheckbox_onChange render false)) w
         (exec (dispatch (fun render => headerCheckbox_onChange render true)) w st))
      = [].
Proof.
  intros w st; split; [| split; [| split; reflexivity]].
  - intros i; simpl; unfold filteredAppointments.
    rewrite in_map_iff; split.
    + intros [app [Hid Hin]].
      apply filter_In in Hin; destruct Hin as [Hin Hnc].
      apply filter_In in Hin; destruct Hin as [Hin Hinc].
      exists app; repeat split; auto.
      * apply includes_spec; exact Hinc.
      * apply not_cancelado_spec; exact Hnc.
    + intros [app [Hin [Hsub [Hnc Hid]]]].
      exists app; split; [exact Hid |].
      apply filter_In; split; [| apply not_cancelado_spec; exact Hnc].
      apply filter_In; split; [exact Hin | apply includes_spec; exact Hsub].
  - simpl; unfold filteredAppointments.
    apply map_filter_filter_subsequence.
Qed.

(** Neither a cancelled row nor a row hidden by the search is selected by
    the header checkbox, and what was selected before is dropped. *)
Example selectAllVisible_leaves_out :
  selectedAppointments
    (exec (dispatch (fun render => headerCheckbox_onChange render true))
          (world_ok [])
          (exec (searchInput_onChange "999") (world_ok [])
                (showing [row1; row2; row3] [3])))
  = [1].
Proof. reflexivity. Qed.

(** ** More on the refresh *)

Lemma fetch_cases : forall w user st,
  (truthy_id user = None /\
   fetchAppointments user w st
     = (tt, exec (fetchAppointments user) w st, []) /\
   exec (fetchAppointments user) w st
     = {| appointments := []; loading := false; error := error st;
          searchTerm := searchTerm st;
          selectedAppointments := selectedAppointments st |}) \/
  (exists user_id,
     truthy_id user = Some user_id /\
     fetchAppointments user w st
       = (tt, exec (fetchAppointments user) w st,
          [BackendSelect (issued_query w user_id)]) /\
     exists rows err,
       exec (fetchAppointments user) w st
         = {| appointments := rows; loading := false; error := err;
              searchTerm := searchTerm st;
              selectedAppointments := selectedAppointments st |}).
Proof.
  intros w user st.
  destruct (truthy_id user) as [user_id |] eqn:Hu.
  - right; exists user_id; split; [reflexivity |].
    unfold exec, fetchAppointments, bind, world, issued_query; rewrite Hu; simpl.
    destruct (sel_error _); simpl; split; try reflexivity; eauto.
  - left; split; [reflexivity |].
    unfold exec; rewrite (fetch_absent_state w user st Hu); simpl; auto.
Qed.

Lemma fetch_keeps_searchTerm : forall w user st,
  searchTerm (exec (fetchAppointments user) w st) = searchTerm st.
Proof.
  intros w user st.
  destruct (fetch_cases w user st) as [[_ [_ ->]] | [user_id [_ [_ [rows [err ->]]]]]];
    reflexivity.
Qed.

Lemma fetch_never_writes : forall w user st u,
  ~ In (BackendUpdate u) (trace (fetchAppointments user) w st).
Proof.
  intros w user st u; unfold trace.
  destruct (fetch_cases w user st) as [[_ [-> _]] | [user_id [_ [-> _]]]];
    simpl; intuition discriminate.
Qed.

(** X1.  However the refresh ends (no identity, a failed read, a successful
    read), the loading flag is cleared and the search term is the one typed
    before. *)
Theorem refresh_clears_loading :
  forall (w : World) (user : option User) (st : State),
    loading (exec (fetchAppointments user) w st) = false /\
    searchTerm (exec (fetchAppointments user) w st) = searchTerm st.
Proof.
  intros w user st; split; [| apply fetch_keeps_searchTerm].
  destruct (fetch_cases w user st) as [[_ [_ ->]] | [user_id [_ [_ [rows [err ->]]]]]];
    reflexivity.
Qed.

(** X2.  The refresh talks to the outside world through one read at most:
    with an identity exactly the read scoped to that identity and to the
    day of the clock, whether it succeeds or fails; without one, nothing.
    It never writes and never opens a dialog. *)
Theorem refresh_only_reads :
  forall (w : World) (user : option User) (st : State),
    trace (fetchAppointments user) w st
      = match truthy_id user with
        | Some user_id => [BackendSelect {| sq_user_id := user_id;
                                            sq_startOfToday := startOfToday w;
                                            sq_startOfTomorrow := startOfTomorrow w |}]
        | None => []
        end.
Proof.
  intros w user st; unfold trace.
  destruct (fetch_cases w user st) as [[Hu [-> _]] | [user_id [Hu [-> _]]]];
    rewrite Hu; reflexivity.
Qed.

(** ** Cancelling one appointment *)

Lemma handleCancelAppointment_run : forall w st user appointmentId,
  handleCancelAppointment user appointmentId w st =
    if window_confirm w cancel_one_question then
      match upd_error (supabase_update w (cancel_one_request user appointmentId)) with
      | Some updateError =>
          (tt, st,
           [Confirm cancel_one_question;
            BackendUpdate (cancel_one_request user appointmentId);
            Alert ("Erro ao cancelar agendamento: " ++ message updateError)%string])
      | None =>
          (tt, exec (fetchAppointments (Some user)) w st,
           [Confirm cancel_one_question;
            BackendUpdate (cancel_one_request user appointmentId);
            Alert "Agendamento cancelado com sucesso!"]
           ++ trace (fetchAppointments (Some user)) w st)
      end
    else (tt, st, [Confirm cancel_one_question]).
Proof.
  intros w st user appointmentId.
  unfold handleCancelAppointment, cancel_one_question, cancel_one_request,
    bind, confirm, update, alert, ret, exec, trace.
  destruct (window_confirm w _); [| reflexivity].
  destruct (upd_error _); [reflexivity |].
  destruct (fetchAppointments (Some user) w st) as [[[] st2] t2]; reflexivity.
Qed.

(** X3.  Cancelling one appointment: if the user declines, nothing is sent
    and the state is untouched; if the update fails, the error is shown and
    the state is untouched; if it succeeds, the notice is shown and the
    refresh runs on the untouched state. *)
Theorem cancelOne_contract :
  forall (w : World) (st : State) (user : User) (appointmentId : Z),
    (window_confirm w cancel_one_question = false ->
     handleCancelAppointment user appointmentId w st
       = (tt, st, [Confirm cancel_one_question])) /\
    (window_confirm w cancel_one_question = true ->
     forall updateError : PostgrestError,
       upd_error (supabase_update w (cancel_one_request user appointmentId))
         = Some updateError ->
       handleCancelAppointment user appointmentId w st
         = (tt, st,
            [Confirm cancel_one_question;
             BackendUpdate (cancel_one_request user appointmentId);
             Alert ("Erro ao cancelar agendamento: "
                    ++ message updateError)%string])) /\
    (window_confirm w cancel_one_question = true ->
     upd_error (supabase_update w (cancel_one_request user appointmentId)) = None ->
     handleCancelAppointment user appointmentId w st
       = (tt, exec (fetchAppointments (Some user)) w st,
          [Confirm cancel_one_question;
           BackendUpdate (cancel_one_request user appointmentId);
           Alert "Agendamento cancelado com sucesso!"]
          ++ trace (fetchAppointments (Some user)) w st)).
Proof.
  intros w st user appointmentId.
  rewrite handleCancelAppointment_run.
  split; [| split].
  - intros ->; reflexivity.
  - intros -> updateError ->; reflexivity.
  - intros -> ->; reflexivity.
Qed.

Lemma cancelOne_contract_witness :
  handleCancelAppointment u1 1 world_declining (showing [row1; row3] [1])
    = (tt, showing [row1; row3] [1],
       [Confirm "Tem certeza que deseja cancelar este agendamento?"]) /\
  handleCancelAppointment u1 1 world_down (showing [row1; row3] [1])
    = (tt, showing [row1; row3] [1],
       [Confirm "Tem certeza que deseja cancelar este agendamento?";
        BackendUpdate {| patch_status := "cancelado"; match_id := IdEq 1;
                         match_user_id := Some "u1" |};
        Alert "Erro ao cancelar agendamento: network"]) /\
  handleCancelAppointment u1 1 (world_ok [row3]) (showing [row1; row3] [1])
    = (tt, showing [row3] [1],
       [Confirm "Tem certeza que deseja cancelar este agendamento?";
        BackendUpdate {| patch_status := "cancelado"; match_id := IdEq 1;
                         match_user_id := Some "u1" |};
        Alert "Agendamento cancelado com sucesso!";
        BackendSelect {| sq_user_id := "u1"; sq_startOfToday := jan1;
                         sq_startOfTomorrow := jan2 |}]).
Proof.
  split; [| split].
  - apply (proj1 (cancelOne_contract world_declining (showing [row1; row3] [1]) u1 1)).
    reflexivity.
  - refine (proj1 (proj2 (cancelOne_contract world_down
                            (showing [row1; row3] [1]) u1 1))
                  _ {| message := "network" |} _); reflexivity.
  - refine (proj2 (proj2 (cancelOne_contract (world_ok [row3])
                            (showing [row1; row3] [1]) u1 1)) _ _); reflexivity.
Defined.

(** X4.  Cancelling one appointment never changes the selection nor the
    search term, whatever the user and the backend answer: a selected row
    that is cancelled this way stays selected. *)
Theorem cancelOne_keeps_selection :
  forall (w : World) (st : State) (user : User) (appointmentId : Z),
    selectedAppointments (exec (handleCancelAppointment user appointmentId) w st)
      = selectedAppointments st /\
    searchTerm (exec (handleCancelAppointment user appointmentId) w st)
      = searchTerm st.
Proof.
  intros w st user appointmentId.
  unfold exec; rewrite handleCancelAppointment_run.
  destruct (window_confirm w _); [| split; reflexivity].
  destruct (upd_error _); [split; reflexivity |].
  simpl; split.
  - apply fetch_keeps_selection.
  - apply fetch_keeps_searchTerm.
Qed.

(** X5.  Cancelling one appointment writes only after the user said yes, and
    then only the update that sets the status of that appointment, scoped to
    the current user. *)
Theorem cancelOne_writes_only_confirmed :
  forall (w : World) (st : State) (user : User) (appointmentId : Z)
         (u : UpdateRequest),
    In (BackendUpdate u) (trace (handleCancelAppointment user appointmentId) w st) ->
    window_confirm w cancel_one_question = true /\
    u = {| patch_status := "cancelado";
           match_id := IdEq appointmentId;
           match_user_id := uid user |}.
Proof.
  intros w st user appointmentId u.
  unfold trace; rewrite handleCancelAppointment_run.
  destruct (window_confirm w _).
  - destruct (upd_error _); simpl.
    + intros [H | [H | [H | []]]]; try discriminate.
      injection H as <-; split; reflexivity.
    + intros [H | [H | [H | H]]]; try discriminate.
      * injection H as <-; split; reflexivity.
      * exfalso; exact (fetch_never_writes w (Some user) st u H).
  - simpl; intros [H | []]; discriminate.
Qed.

Lemma cancelOne_writes_only_confirmed_witness :
  window_confirm (world_ok [row3]) cancel_one_question = true /\
  cancel_one_request u1 1
    = {| patch_status := "cancelado"; match_id := IdEq 1;
         match_user_id := uid u1 |}.
Proof.
  apply (cancelOne_writes_only_confirmed (world_ok [row3])
           (showing [row1; row3] []) u1 1 (cancel_one_request u1 1)).
  simpl; auto.
Defined.

(** ** More on the bulk cancel *)

Lemma handleCancelSelected_run : forall w st user,
  dispatch (fun render => handleCancelSelectedAppointments render user) w st =
    if (List.length (selectedAppointments st) =? 0)%nat then
      (tt, st, [Alert "Nenhum agendamento selecionado para cancelar."])
    else if window_confirm w (cancel_selected_question st) then
      match upd_error (supabase_update w (cancel_selected_request st user)) with
      | Some updateError =>
          (tt, st,
           [Confirm (cancel_selected_question st);
            BackendUpdate (cancel_selected_request st user);
            Alert ("Erro ao cancelar agendamentos selecionados: "
                   ++ message updateError)%string])
      | None =>
          (tt,
           exec (fetchAppointments (Some user)) w
                (exec (setSelectedAppointments []) w st),
           [Confirm (cancel_selected_question st);
            BackendUpdate (cancel_selected_request st user);
            Alert (Js.toString (List.length (selectedAppointments st))
                   ++ " agendamento(s) cancelado(s) com sucesso!")%string]
           ++ trace (fetchAppointments (Some user)) w
                    (exec (setSelectedAppointments []) w st))
      end
    else (tt, st, [Confirm (cancel_selected_question st)]).
Proof.
  intros w st user.
  unfold dispatch, handleCancelSelectedAppointments, cancel_selected_question,
    cancel_selected_request.
  destruct (List.length (selectedAppointments st) =? 0)%nat; [reflexivity |].
  unfold bind, confirm, update, alert, ret, exec, trace.
  destruct (window_confirm w _); [| reflexivity].
  destruct (upd_error _); [reflexivity |].
  destruct (fetchAppointments (Some user) w
              (snd (fst (setSelectedAppointments [] w st)))) as [[[] st2] t2] eqn:Hf.
  simpl in *; rewrite Hf; reflexivity.
Qed.

(** X6.  With a selection, declining the question of the bulk cancel sends
    nothing and leaves the state, selection included, untouched. *)
Theorem cancelSelected_declined :
  forall (w : World) (st : State) (user : User),
    selectedAppointments st <> [] ->
    window_confirm w (cancel_selected_question st) = false ->
    dispatch (fun render => handleCancelSelectedAppointments render user) w st
      = (tt, st, [Confirm (cancel_selected_question st)]).
Proof.
  intros w st user Hne Hc.
  rewrite handleCancelSelected_run, Hc.
  destruct (selectedAppointments st); [congruence | reflexivity].
Qed.

Lemma cancelSelected_declined_witness :
  dispatch (fun render => handleCancelSelectedAppointments render u1)
           world_declining (showing [row1; row3] [1; 3])
    = (tt, showing [row1; row3] [1; 3],
       [Confirm "Tem certeza que deseja cancelar 2 agendamento(s) selecionado(s)?"]).
Proof.
  apply (cancelSelected_declined world_declining (showing [row1; row3] [1; 3]) u1).
  - discriminate.
  - reflexivity.
Defined.

(** X7.  The bulk cancel writes only when something is selected and the user
    said yes, and then only the one update that sets the status of exactly
    the selected identifiers, scoped to the current user. *)
Theorem cancelSelected_writes_only_confirmed :
  forall (w : World) (st : State) (user : User) (u : UpdateRequest),
    In (BackendUpdate u)
       (trace (dispatch (fun render => handleCancelSelectedAppointments render user))
              w st) ->
    selectedAppointments st <> [] /\
    window_confirm w (cancel_selected_question st) = true /\
    u = {| patch_status := "cancelado";
           match_id := IdIn (selectedAppointments st);
           match_user_id := uid user |}.
Proof.
  intros w st user u.
  unfold trace; rewrite handleCancelSelected_run.
  destruct (selectedAppointments st) as [| i sel] eqn:Hsel; simpl List.length;
    cbv beta iota.
  - simpl; intros [H | []]; discriminate.
  - change (S (List.length sel) =? 0)%nat with false; cbv iota.
    destruct (window_confirm w _).
    + destruct (upd_error _); simpl.
      * intros [H | [H | [H | []]]]; try discriminate.
        injection H as <-; unfold cancel_selected_request; rewrite Hsel.
        repeat split; discriminate.
      * intros [H | [H | [H | H]]]; try discriminate.
        -- injection H as <-; unfold cancel_selected_request; rewrite Hsel.
           repeat split; discriminate.
        -- exfalso; exact (fetch_never_writes w (Some user) _ u H).
    + simpl; intros [H | []]; discriminate.
Qed.

Lemma cancelSelected_writes_only_confirmed_witness :
  selectedAppointments (showing [row1; row3] [1; 3]) <> [] /\
  window_confirm (world_ok [row2])
    (cancel_selected_question (showing [row1; row3] [1; 3])) = true /\
  cancel_selected_request (showing [row1; row3] [1; 3]) u1
    = {| patch_status := "cancelado"; match_id := IdIn [1; 3];
         match_user_id := uid u1 |}.
Proof.
  apply (cancelSelected_writes_only_confirmed (world_ok [row2])
           (showing [row1; row3] [1; 3]) u1
           (cancel_selected_request (showing [row1; row3] [1; 3]) u1)).
  simpl; auto.
Defined.

(** ** More on the order of the list *)

Section SortedLists.
Context {A : Type}.
Variable comparefn : A -> A -> Z.

Let le (a b : A) : Prop := comparefn a b <= 0.

Lemma sort_of_sorted : forall l,
  StronglySorted le l -> Js.sort comparefn l = l.
Proof.
  induction l as [| x l IH]; intros Hs; simpl.
  - reflexivity.
  - apply StronglySorted_inv in Hs; destruct Hs as [Hs Hall].
    rewrite (IH Hs).
    destruct l as [| y l]; simpl; [reflexivity |].
    inversion Hall as [| ? ? Hxy _]; subst.
    unfold le in Hxy.
    destruct (0 <? comparefn x y) eqn:E; [apply Z.ltb_lt in E; lia | reflexivity].
Qed.

Lemma sorted_unique : forall l1 l2,
  StronglySorted le l1 -> StronglySorted le l2 -> Permutation l1 l2 ->
  (forall a b, In a l1 -> In b l1 -> le a b -> le b a -> a = b) ->
  l1 = l2.
Proof.
  induction l1 as [| a t1 IH]; intros l2 Hs1 Hs2 Hp Hanti.
  - apply Permutation_nil in Hp; subst; reflexivity.
  - destruct l2 as [| b t2].
    + apply Permutation_sym, Permutation_nil in Hp; discriminate.
    + apply StronglySorted_inv in Hs1; destruct Hs1 as [Hs1 Hall1].
      apply StronglySorted_inv in Hs2; destruct Hs2 as [Hs2 Hall2].
      rewrite Forall_forall in Hall1, Hall2.
      assert (Hab : a = b).
      { assert (Ha : In a (b :: t2))
          by (eapply Permutation_in; [exact Hp | left; reflexivity]).
        assert (Hb : In b (a :: t1))
          by (eapply Permutation_in;
              [apply Permutation_sym; exact Hp | left; reflexivity]).
        destruct Ha as [Ha | Ha]; [symmetry; exact Ha |].
        destruct Hb as [Hb | Hb]; [exact Hb |].
        apply Hanti; [left; reflexivity | right; exact Hb | |]; auto. }
      subst b; f_equal.
      apply IH; auto.
      * eapply Permutation_cons_inv; exact Hp.
      * intros x y Hx Hy; apply Hanti; right; assumption.
Qed.
End SortedLists.

Lemma tie_free_antisym : forall S a b,
  tie_free S -> In a S -> In b S ->
  comes_first_or_ties a b -> comes_first_or_ties b a -> a = b.
Proof.
  unfold tie_free, comes_first_or_ties; intros S a b Ht Ha Hb Hab Hba.
  apply Ht; auto.
  rewrite (compare_flip a b) in Hba; lia.
Qed.

(** X8.  The stored list does not depend on the order in which the backend
    returns the rows: two successful reads that answer with the same
    pending and cancelado rows, no two of them tying under the comparator,
    store the same list. *)
Theorem refresh_order_independent :
  forall (w w' : World) (user : option User) (user_id : string)
         (st st' : State) (S S' : list Appointment),
    truthy_id user = Some user_id ->
    sel_error (supabase_select w (issued_query w user_id)) = None ->
    data (supabase_select w (issued_query w user_id)) = Some S ->
    sel_error (supabase_select w' (issued_query w' user_id)) = None ->
    data (supabase_select w' (issued_query w' user_id)) = Some S' ->
    Permutation S S' ->
    Forall fetchable S ->
    tie_free S ->
    appointments (exec (fetchAppointments user) w st)
      = appointments (exec (fetchAppointments user) w' st').
Proof.
  intros w w' user user_id st st' S S' Hu He Hd He' Hd' Hp Hf Ht.
  rewrite (fetch_ok_state w user user_id st Hu He), Hd.
  rewrite (fetch_ok_state w' user user_id st' Hu He'), Hd'; simpl.
  assert (Hf' : Forall fetchable S') by (eapply Permutation_Forall; eauto).
  apply (sorted_unique compareAppointments).
  - apply (sort_sorted compareAppointments fetchable);
      [apply compare_le_flip | apply compare_trans_fetchable | exact Hf].
  - apply (sort_sorted compareAppointments fetchable);
      [apply compare_le_flip | apply compare_trans_fetchable | exact Hf'].
  - eapply Permutation_trans; [apply Permutation_sym, sort_perm |].
    eapply Permutation_trans; [exact Hp | apply sort_perm].
  - intros a b Ha Hb.
    apply (tie_free_antisym S); auto.
    + eapply Permutation_in; [apply Permutation_sym, sort_perm | exact Ha].
    + eapply Permutation_in; [apply Permutation_sym, sort_perm | exact Hb].
Qed.

Lemma sample_rows_tie_free : tie_free [row1; row2; row3].
Proof.
  intros a b Ha Hb; simpl in Ha, Hb.
  destruct Ha as [<- | [<- | [<- | []]]], Hb as [<- | [<- | [<- | []]]];
    vm_compute; intros H; try reflexivity; discriminate.
Qed.

Lemma refresh_order_independent_witness :
  appointments (exec (fetchAppointments (Some u1))
                     (world_ok [row1; row2; row3]) initial_state)
  = appointments (exec (fetchAppointments (Some u1))
                       (world_ok [row3; row2; row1]) (showing [row2] [2])).
Proof.
  apply (refresh_order_independent
           (world_ok [row1; row2; row3]) (world_ok [row3; row2; row1])
           (Some u1) "u1" initial_state (showing [row2] [2])
           [row1; row2; row3] [row3; row2; row1]).
  - reflexivity.
  - reflexivity.
  - reflexivity.
  - reflexivity.
  - reflexivity.
  - exact (Permutation_rev [row1; row2; row3]).
  - rewrite Forall_forall; intros a [<- | [<- | [<- | []]]];
      unfold fetchable; simpl; auto.
  - exact sample_rows_tie_free.
Defined.

(** X9.  When the backend answers with rows already in an order the
    comparator accepts, the refresh stores them in exactly that order: the
    sort moves nothing, tying rows included. *)
Theorem refresh_keeps_sorted_answer :
  forall (w : World) (user : option User) (user_id : string) (st : State)
         (S : list Appointment),
    truthy_id user = Some user_id ->
    sel_error (supabase_select w (issued_query w user_id)) = None ->
    data (supabase_select w (issued_query w user_id)) = Some S ->
    StronglySorted comes_first_or_ties S ->
    appointments (exec (fetchAppointments user) w st) = S.
Proof.
  intros w user user_id st S Hu He Hd Hs.
  rewrite (fetch_ok_state w user user_id st Hu He), Hd; simpl.
  apply sort_of_sorted; exact Hs.
Qed.

Lemma refresh_keeps_sorted_answer_witness :
  appointments (exec (fetchAppointments (Some u1))
                     (world_ok [row3; row1; row2]) initial_state)
  = [row3; row1; row2].
Proof.
  apply (refresh_keeps_sorted_answer (world_ok [row3; row1; row2]) (Some u1) "u1"
           initial_state [row3; row1; row2]).
  - reflexivity.
  - reflexivity.
  - reflexivity.
  - repeat constructor; unfold comes_first_or_ties; vm_compute; congruence.
Defined.

(** ** More on the search filter *)

Lemma sorted_two_tier_cons : forall x l,
  sorted_two_tier (x :: l) <->
  (forall y, In y l ->
     ~ (status x = "cancelado" /\ status y = "pending") /\
     (~ pending_cancelado_pairing x y -> scheduled_for x <= scheduled_for y)) /\
  sorted_two_tier l.
Proof.
  intros x l; split.
  - intros H; split.
    + intros y Hy; apply In_nth_error in Hy; destruct Hy as [j Hj].
      apply (H 0%nat (S j)); [lia | reflexivity | exact Hj].
    + intros i j a b Hij Ha Hb.
      apply (H (S i) (S j)); [lia | exact Ha | exact Hb].
  - intros [Hx Hl] i j a b Hij Ha Hb.
    destruct j as [| j]; [lia |].
    destruct i as [| i]; simpl in Ha, Hb.
    + injection Ha as <-; apply Hx; eapply nth_error_In; exact Hb.
    + apply (Hl i j); [lia | exact Ha | exact Hb].
Qed.

Lemma filter_two_tier : forall (f : Appointment -> bool) l,
  sorted_two_tier l -> sorted_two_tier (filter f l).
Proof.
  intros f l; induction l as [| x l IH]; intros Hs; simpl; [exact Hs |].
  apply sorted_two_tier_cons in Hs; destruct Hs as [Hx Hl].
  destruct (f x); [| apply IH; exact Hl].
  apply sorted_two_tier_cons; split; [| apply IH; exact Hl].
  intros y Hy; apply filter_In in Hy; apply Hx, Hy.
Qed.

(** X10.  Searching keeps the order: when the stored list is in the
    two-tier order, so is the list shown under any search term. *)
Theorem search_keeps_order :
  forall st : State,
    sorted_two_tier (appointments st) ->
    sorted_two_tier (filteredAppointments st).
Proof.
  intros st Hs; unfold filteredAppointments.
  apply filter_two_tier; exact Hs.
Qed.

Lemma search_keeps_order_witness :
  sorted_two_tier
    (filteredAppointments
       (exec (searchInput_onChange "99")
             (world_ok [])
             (exec (fetchAppointments (Some u1)) (world_ok [row1; row2; row3])
                   initial_state))).
Proof.
  apply (search_keeps_order
           (exec (searchInput_onChange "99")
                 (world_ok [])
                 (exec (fetchAppointments (Some u1)) (world_ok [row1; row2; row3])
                       initial_state))).
  apply (sort_two_tier [row1; row2; row3]).
  rewrite Forall_forall; intros a [<- | [<- | [<- | []]]];
    unfold fetchable; simpl; auto.
Defined.

Lemma includes_empty : forall s, Js.includes s "" = true.
Proof.
  intros s; destruct s; reflexivity.
Qed.

Lemma is_substring_trans : forall a b c,
  is_substring a b -> is_substring b c -> is_substring a c.
Proof.
  intros a b c [p1 [q1 ->]] [p2 [q2 ->]].
  exists (p2 ++ p1)%string, (q1 ++ q2)%string.
  induction p2 as [| ch p2 IH]; simpl.
  - induction p1 as [| ch p1 IH1]; simpl.
    + induction a as [| ch a IHa]; simpl.
      * reflexivity.
      * f_equal; exact IHa.
    + f_equal; exact IH1.
  - f_equal; exact IH.
Qed.

(** X11.  With the search box empty every stored row is shown; and typing a
    term that contains the current one never brings in a row that was
    hidden. *)
Theorem search_narrows :
  forall (w : World) (st : State) (value : string),
    (searchTerm st = "" -> filteredAppointments st = appointments st) /\
    (is_substring (searchTerm st) value ->
     forall app,
       In app (filteredAppointments (exec (searchInput_onChange value) w st)) ->
       In app (filteredAppointments st)).
Proof.
  intros w st value; unfold filteredAppointments; split.
  - intros ->.
    induction (appointments st) as [| x l IH]; simpl; [reflexivity |].
    rewrite includes_empty, IH; reflexivity.
  - intros Hsub app; simpl; rewrite !filter_In, !includes_spec.
    intros [Hin Hs]; split; [exact Hin |].
    eapply is_substring_trans; eassumption.
Qed.

Lemma search_narrows_witness :
  filteredAppointments (showing [row1; row2; row3] []) = [row1; row2; row3] /\
  (In row1 (filteredAppointments
              (exec (searchInput_onChange "1199") (world_ok [])
                    (exec (searchInput_onChange "119") (world_ok [])
                          (showing [row1; row2; row3] [])))) ->
   In row1 (filteredAppointments
              (exec (searchInput_onChange "119") (world_ok [])
                    (showing [row1; row2; row3] [])))).
Proof.
  split.
  - apply (proj1 (search_narrows (world_ok []) (showing [row1; row2; row3] []) "")).
    reflexivity.
  - apply (proj2 (search_narrows (world_ok [])
                    (exec (searchInput_onChange "119") (world_ok [])
                          (showing [row1; row2; row3] [])) "1199")).
    exists "", "9"; reflexivity.
Defined.

(** ** More on the selection *)

Lemma rowCheckbox_checked_In : forall st app,
  rowCheckbox_checked st app = true <-> In (id app) (selectedAppointments st).
Proof.
  intros st app; unfold rowCheckbox_checked.
  rewrite existsb_exists; split.
  - intros [i [Hi He]]; apply Z.eqb_eq in He; subst; exact Hi.
  - intros H; exists (id app); split; [exact H | apply Z.eqb_refl].
Qed.

(** X12.  A row's checkbox changes the membership of that row only: ticking
    adds its identifier, unticking removes every occurrence of it, every
    other identifier stays in or out; and the checkbox then shows what was
    clicked. *)
Theorem rowCheckbox_membership :
  forall (w : World) (st : State) (app : Appointment) (checked : bool),
    (forall i : Z,
       In i (selectedAppointments
               (exec (dispatch (fun render =>
                        rowCheckbox_onChange render app checked)) w st)) <->
       if checked then In i (selectedAppointments st) \/ i = id app
       else In i (selectedAppointments st) /\ i <> id app) /\
    rowCheckbox_checked
      (exec (dispatch (fun render => rowCheckbox_onChange render app checked)) w st)
      app = checked.
Proof.
  intros w st app checked.
  assert (Hmem : forall i : Z,
       In i (selectedAppointments
               (exec (dispatch (fun render =>
                        rowCheckbox_onChange render app checked)) w st)) <->
       if checked then In i (selectedAppointments st) \/ i = id app
       else In i (selectedAppointments st) /\ i <> id app).
  { intros i; destruct checked; simpl.
    - rewrite in_app_iff; simpl; intuition.
    - rewrite filter_In, negb_true_iff, Z.eqb_neq; reflexivity. }
  split; [exact Hmem |].
  destruct (rowCheckbox_checked _ app) eqn:E.
  - apply rowCheckbox_checked_In, Hmem in E.
    destruct checked; [reflexivity | destruct E as [_ E]; congruence].
  - destruct checked; [| reflexivity].
    rewrite <- E; apply rowCheckbox_checked_In, Hmem; auto.
Qed.

Lemma filter_absent : forall (l : list Z) (x : Z),
  ~ In x l -> filter (fun i => negb (i =? x)) l = l.
Proof.
  intros l x; induction l as [| y l IH]; intros Hn; simpl; [reflexivity |].
  destruct (Z.eqb_spec y x) as [-> | Hne]; simpl.
  - exfalso; apply Hn; left; reflexivity.
  - rewrite IH; [reflexivity | intros H; apply Hn; right; exact H].
Qed.

(** X13.  Clicking the checkbox of an unticked row twice gives back the
    selection exactly as it was, order included. *)
Theorem rowCheckbox_click_twice :
  forall (w : World) (st : State) (app : Appointment),
    rowCheckbox_checked st app = false ->
    selectedAppointments
      (exec (dispatch (fun render =>
               rowCheckbox_onChange render app
                 (negb (rowCheckbox_checked render app)))) w
         (exec (dispatch (fun render =>
                  rowCheckbox_onChange render app
                    (negb (rowCheckbox_checked render app)))) w st))
      = selectedAppointments st.
Proof.
  intros w st app Hoff.
  assert (Hn : ~ In (id app) (selectedAppointments st)).
  { intros H; apply rowCheckbox_checked_In in H; congruence. }
  unfold exec, dispatch; rewrite Hoff; simpl.
  assert (Hon : rowCheckbox_checked
                  {| appointments := appointments st; loading := loading st;
                     error := error st; searchTerm := searchTerm st;
                     selectedAppointments := selectedAppointments st ++ [id app] |}
                  app = true).
  { apply rowCheckbox_checked_In; simpl; apply in_or_app; right; left; reflexivity. }
  rewrite Hon; simpl.
  rewrite filter_app; simpl.
  rewrite Z.eqb_refl; simpl.
  rewrite app_nil_r; apply filter_absent; exact Hn.
Qed.

Lemma rowCheckbox_click_twice_witness :
  selectedAppointments
    (exec (dispatch (fun render =>
             rowCheckbox_onChange render row3
               (negb (rowCheckbox_checked render row3)))) (world_ok [])
       (exec (dispatch (fun render =>
                rowCheckbox_onChange render row3
                  (negb (rowCheckbox_checked render row3)))) (world_ok [])
             (showing [row1; row2; row3] [1])))
    = [1].
Proof.
  apply (rowCheckbox_click_twice (world_ok []) (showing [row1; row2; row3] [1]) row3).
  reflexivity.
Defined.

Lemma NoDup_map_filter : forall (A B : Type) (f : A -> B) (p : A -> bool) l,
  NoDup (map f l) -> NoDup (map f (filter p l)).
Proof.
  intros A B f p l; induction l as [| x l IH]; intros Hnd; simpl; [constructor |].
  inversion Hnd as [| ? ? Hnotin Hnd']; subst.
  destruct (p x); simpl; [| apply IH; exact Hnd'].
  constructor; [| apply IH; exact Hnd'].
  intros Hin; apply Hnotin.
  apply in_map_iff in Hin; destruct Hin as [y [Hy Hin]].
  apply filter_In in Hin; rewrite <- Hy; apply in_map, Hin.
Qed.

Lemma click_keeps_NoDup : forall w st st',
  click w st st' ->
  NoDup (map id (appointments st)) ->
  NoDup (selectedAppointments st) ->
  appointments st' = appointments st /\ NoDup (selectedAppointments st').
Proof.
  intros w st st' Hc Hids Hsel.
  destruct Hc as [st app Hin Hnc | st Hne | st value].
  - unfold exec, dispatch.
    destruct (rowCheckbox_checked st app) eqn:E; simpl; (split; [reflexivity |]).
    + apply NoDup_filter; exact Hsel.
    + apply NoDup_app; [exact Hsel | repeat constructor; simpl; tauto |].
      intros a Ha [<- | []].
      apply rowCheckbox_checked_In in Ha; congruence.
  - unfold exec, dispatch.
    destruct (headerCheckbox_checked st); simpl; (split; [reflexivity |]);
      [constructor |].
    unfold filteredAppointments.
    apply NoDup_map_filter, NoDup_map_filter; exact Hids.
  - split; [reflexivity | exact Hsel].
Qed.

(** X14.  Over rows with distinct identifiers, clicks on the checkboxes and
    typing in the search box never put an identifier in the selection
    twice: the number on the bulk button counts distinct rows. *)
Theorem clicks_keep_selection_duplicate_free :
  forall (w : World) (st st' : State),
    clicks w st st' ->
    NoDup (map id (appointments st)) ->
    NoDup (selectedAppointments st) ->
    NoDup (selectedAppointments st').
Proof.
  intros w st st' Hcs; induction Hcs as [st | st1 st2 st3 Hc _ IH];
    intros Hids Hsel; [exact Hsel |].
  destruct (click_keeps_NoDup w st1 st2 Hc Hids Hsel) as [Happ Hsel2].
  apply IH; [rewrite Happ; exact Hids | exact Hsel2].
Qed.

Lemma clicks_keep_selection_duplicate_free_witness :
  NoDup (selectedAppointments
           (exec (dispatch (fun render =>
                    rowCheckbox_onChange render row3
                      (negb (rowCheckbox_checked render row3)))) (world_ok [])
                 (exec (dispatch (fun render =>
                          headerCheckbox_onChange render
                            (negb (headerCheckbox_checked render)))) (world_ok [])
                       (showing [row1; row2; row3] [])))).
Proof.
  apply (clicks_keep_selection_duplicate_free (world_ok [])
           (showing [row1; row2; row3] [])).
  - eapply clicks_cons; [apply click_header; discriminate |].
    eapply clicks_cons; [| apply clicks_nil].
    apply (click_row (world_ok []) _ row3); [simpl; auto | reflexivity].
  - repeat constructor; simpl; intuition discriminate.
  - constructor.
Defined.

(** ** What is shown *)

(** X15.  When the selection has no duplicate and holds only identifiers of
    selectable rows (shown and not cancelled), themselves distinct, the
    header checkbox is ticked exactly when there is a selectable row and
    every selectable row is ticked. *)
Theorem headerCheckbox_truthful :
  forall st : State,
    NoDup (selectedAppointments st) ->
    NoDup (map id (selectable st)) ->
    incl (selectedAppointments st) (map id (selectable st)) ->
    (headerCheckbox_checked st = true <->
     selectable st <> [] /\
     forall app, In app (selectable st) -> rowCheckbox_checked st app = true).
Proof.
  intros st Hsel Hids Hincl; unfold headerCheckbox_checked.
  rewrite andb_true_iff, Nat.eqb_eq, Nat.ltb_lt; split.
  - intros [Hlen Hpos]; split.
    + intros He; rewrite He in Hpos; simpl in Hpos; lia.
    + intros app Hin; apply rowCheckbox_checked_In.
      apply (NoDup_length_incl Hsel (l' := map id (selectable st))).
      * rewrite length_map; lia.
      * exact Hincl.
      * apply in_map; exact Hin.
  - intros [Hne Hall]; split.
    + assert (Hback : incl (map id (selectable st)) (selectedAppointments st)).
      { intros i Hi; apply in_map_iff in Hi; destruct Hi as [app [<- Hin]].
        apply rowCheckbox_checked_In, Hall, Hin. }
      pose proof (NoDup_incl_length Hsel Hincl) as H1.
      pose proof (NoDup_incl_length Hids Hback) as H2.
      rewrite length_map in H1, H2; lia.
    + destruct (selectable st); [congruence | simpl; lia].
Qed.

Lemma headerCheckbox_truthful_witness :
  headerCheckbox_checked (showing [row1; row2; row3] [3; 1]) = true <->
  selectable (showing [row1; row2; row3] [3; 1]) <> [] /\
  forall app, In app (selectable (showing [row1; row2; row3] [3; 1])) ->
              rowCheckbox_checked (showing [row1; row2; row3] [3; 1]) app = true.
Proof.
  apply (headerCheckbox_truthful (showing [row1; row2; row3] [3; 1])).
  - repeat constructor; simpl; intuition discriminate.
  - repeat constructor; simpl; intuition discriminate.
  - intros i [<- | [<- | []]]; simpl; auto.
Defined.

(** X16.  After ticking the header checkbox every selectable row shows
    ticked, the header checkbox shows ticked exactly when there is a
    selectable row, and the bulk button, there in that case only, counts the
    selectable rows. *)
Theorem selectAll_shows :
  forall (w : World) (st : State),
    (forall app,
       In app (selectable st) ->
       rowCheckbox_checked
         (exec (dispatch (fun render => headerCheckbox_onChange render true)) w st)
         app = true) /\
    headerCheckbox_checked
      (exec (dispatch (fun render => headerCheckbox_onChange render true)) w st)
      = (0 <? List.length (selectable st))%nat /\
    cancelSelectedButton
      (exec (dispatch (fun render => headerCheckbox_onChange render true)) w st)
      = if (0 <? List.length (selectable st))%nat
        then Some (List.length (selectable st)) else None.
Proof.
  intros w st; split; [| split].
  - intros app Hin; apply rowCheckbox_checked_In; simpl.
    apply in_map; exact Hin.
  - unfold headerCheckbox_checked, selectable, filteredAppointments; simpl.
    rewrite length_map, Nat.eqb_refl; reflexivity.
  - unfold cancelSelectedButton, selectable, filteredAppointments; simpl.
    rewrite length_map; reflexivity.
Qed.

(** X17.  Whenever the bulk button is on the page, a click on it opens the
    confirmation dialog, and the dialog names the count the button shows;
    the notice that nothing is selected cannot be reached from the button. *)
Theorem cancelSelectedButton_asks :
  forall (w : World) (st : State) (user : User) (n : nat),
    cancelSelectedButton st = Some n ->
    exists rest : list Effect,
      trace (dispatch (fun render => handleCancelSelectedAppointments render user))
            w st
        = Confirm ("Tem certeza que deseja cancelar " ++ Js.toString n
                   ++ " agendamento(s) selecionado(s)?")%string :: rest.
Proof.
  intros w st user n; unfold cancelSelectedButton, trace.
  rewrite handleCancelSelected_run; unfold cancel_selected_question.
  destruct (selectedAppointments st) as [| i sel]; simpl List.length.
  - discriminate.
  - change (0 <? S (List.length sel))%nat with true.
    change (S (List.length sel) =? 0)%nat with false; cbv iota.
    intros H; injection H as <-.
    destruct (window_confirm w _); [destruct (upd_error _) |]; simpl; eauto.
Qed.

Lemma cancelSelectedButton_asks_witness :
  exists rest : list Effect,
    trace (dispatch (fun render => handleCancelSelectedAppointments render u1))
          world_declining (showing [row1; row3] [1; 3])
      = Confirm "Tem certeza que deseja cancelar 2 agendamento(s) selecionado(s)?"
        :: rest.
Proof.
  apply (cancelSelectedButton_asks world_declining (showing [row1; row3] [1; 3])
           u1 2).
  reflexivity.
Defined.

Lemma fetchAppointments_split : forall w user user_id st,
  truthy_id user = Some user_id ->
  fetchAppointments user w st
    = (r <- fetchAppointments_begin user_id ;; fetchAppointments_resume r) w st.
Proof.
  intros w user user_id st Hu.
  unfold fetchAppointments, fetchAppointments_begin, fetchAppointments_resume,
    bind, world; rewrite Hu; simpl.
  destruct (sel_error _); reflexivity.
Qed.

(** X18.  What shows when the answer of a read arrives, in whatever state
    the component is by then: never the loading notice.  After a failed
    read the error notice with the backend's message, unless that message is
    empty, in which case the page shows with no table.  After a successful
    read the page, unless the state holds a non-empty error at that moment
    (the success path does not reset it), in which case that error notice
    shows.  A refresh without an identity, which does not wait, shows the
    error notice of an earlier failure if there is one, otherwise the page
    with no table. *)
Theorem view_after_refresh :
  forall (w : World) (user : option User) (r : SelectResponse) (st : State),
    view (exec (fetchAppointments_resume r) w st)
      = match sel_error r with
        | Some fetchError =>
            if (message fetchError =? "")%string
            then Lista (searchTerm st) (cancelSelectedButton st) None
            else ErroAoCarregar (message fetchError)
        | None =>
            match error st with
            | Some msg =>
                if (msg =? "")%string
                then page (exec (fetchAppointments_resume r) w st)
                else ErroAoCarregar msg
            | None => page (exec (fetchAppointments_resume r) w st)
            end
        end /\
    (truthy_id user = None ->
     view (exec (fetchAppointments user) w st)
       = match error st with
         | Some msg =>
             if (msg =? "")%string
             then Lista (searchTerm st) (cancelSelectedButton st) None
             else ErroAoCarregar msg
         | None => Lista (searchTerm st) (cancelSelectedButton st) None
         end).
Proof.
  intros w user r st; split.
  - unfold exec, fetchAppointments_resume, bind, view.
    destruct (sel_error r) as [fetchError |]; simpl.
    + destruct (message fetchError =? "")%string; reflexivity.
    + destruct (error st) as [msg |]; [destruct (msg =? "")%string |]; reflexivity.
  - intros Hu.
    unfold exec; rewrite (fetch_absent_state w user st Hu).
    unfold view; simpl.
    destruct (error st) as [msg |]; [destruct (msg =? "")%string |]; reflexivity.
Qed.

Lemma view_after_refresh_witness :
  view (exec (fetchAppointments None) world_down
             (exec (fetchAppointments (Some u1)) world_down (showing [row1] [1])))
    = ErroAoCarregar "network".
Proof.
  apply (proj2 (view_after_refresh world_down None
                  {| data := None; sel_error := None |}
                  (exec (fetchAppointments (Some u1)) world_down
                        (showing [row1] [1])))).
  reflexivity.
Defined.

(** A refresh run alone, as begin then resume, shows its own outcome. *)
Example view_after_failed_refresh :
  view (exec (r <- fetchAppointments_begin "u1" ;; fetchAppointments_resume r)
             world_down (showing [row1] [1]))
    = ErroAoCarregar "network" /\
  view (exec (r <- fetchAppointments_begin "u1" ;; fetchAppointments_resume r)
             (world_ok [row1]) (showing [] []))
    = page (showing [row1] []).
Proof. split; reflexivity. Qed.

(** Two refreshes that overlap: both begin, the second one's read fails,
    then the first one's read succeeds.  The rows of the first are stored
    and the error of the second is what shows. *)
Example view_after_overlapping_refreshes :
  appointments
    (exec (fetchAppointments_resume {| data := Some [row1]; sel_error := None |})
       (world_ok [row1])
       (exec (fetchAppointments_resume
                {| data := None; sel_error := Some {| message := "network" |} |})
          world_down
          (exec (fetchAppointments_begin "u1") world_down
             (exec (fetchAppointments_begin "u1") (world_ok [row1])
                (showing [] [])))))
    = [row1] /\
  view
    (exec (fetchAppointments_resume {| data := Some [row1]; sel_error := None |})
       (world_ok [row1])
       (exec (fetchAppointments_resume
                {| data := None; sel_error := Some {| message := "network" |} |})
          world_down
          (exec (fetchAppointments_begin "u1") world_down
             (exec (fetchAppointments_begin "u1") (world_ok [row1])
                (showing [] [])))))
    = ErroAoCarregar "network".
Proof. split; reflexivity. Qed.

(** ** The mount effect *)

(** X19.  The mount effect leaves the state and performs the reads of a
    refresh, with or without a user; it subscribes to a channel exactly when
    it issues the read, and the channel is then named after, and filtered
    on, the identifier the read is scoped to. *)
Theorem useEffect_refreshes_and_subscribes :
  forall (w : World) (user : option User) (st : State),
    exec (useEffect_body user) w st = exec (fetchAppointments user) w st /\
    trace (useEffect_body user) w st = trace (fetchAppointments user) w st /\
    match fst (fst (useEffect_body user w st)) with
    | Some channel =>
        exists user_id : string,
          trace (useEffect_body user) w st
            = [BackendSelect (issued_query w user_id)] /\
          channelName channel = ("scheduled_messages_user_" ++ user_id)%string /\
          ch_filter channel = ("user_id=eq." ++ user_id)%string /\
          ch_table channel = "scheduled_messages" /\
          ch_event channel = "*"
    | None => trace (useEffect_body user) w st = []
    end.
Proof.
  intros w user st.
  pose proof (fetch_cases w user st) as Hc.
  unfold useEffect_body, exec, trace, bind in *.
  destruct (truthy_id user) as [user_id |] eqn:Hu.
  - destruct Hc as [[Hn _] | [user_id' [Hs [Hrun _]]]]; [discriminate |].
    injection Hs as <-.
    rewrite Hrun; simpl.
    repeat split; exists user_id; repeat split.
  - clear Hc; rewrite (fetch_absent_state w user st Hu); simpl.
    repeat split.
Qed.

(** ** After a bulk cancel *)


